(** * react-textarea-autocomplete: token detection, candidate fetching and
      text splicing of [Textarea.jsx]

    A shallow embedding of the [ReactTextareaAutocomplete] component: the
    JavaScript string primitives it calls, its state record, its handlers as
    functions on an explicit machine state (component state, the textarea
    element, the fetches in flight and the log of host-visible effects), and
    the properties of the written specification that these handlers decide. *)

From Stdlib Require Import Ascii String.
From Stdlib Require Import List NArith ZArith Bool Lia.
Import ListNotations.

Set Implicit Arguments.

(* ------------------------------------------------------------------ *)
(** ** JavaScript strings and the primitives used by the component     *)
(* ------------------------------------------------------------------ *)

Module JS.

(** A JavaScript string is a sequence of UTF-16 code units. *)
Definition code_unit := N.
Definition jstring := list code_unit.

(** Literals: the code units of an ASCII/Latin-1 literal. *)
Definition lit (s : string) : jstring :=
  List.map N_of_ascii (list_ascii_of_string s).

Definition DOLLAR : code_unit := 36%N.
Definition AMPERSAND : code_unit := 38%N.
Definition APOSTROPHE : code_unit := 39%N.
Definition HYPHEN : code_unit := 45%N.
Definition BACKSLASH : code_unit := 92%N.
Definition RBRACKET : code_unit := 93%N.
Definition CARET : code_unit := 94%N.
Definition BACKTICK : code_unit := 96%N.

(** [\s]: WhiteSpace and LineTerminator of ECMAScript
    (TAB, LF, VT, FF, CR, SP, NBSP, U+1680, U+2000..U+200A, LS, PS,
    U+202F, U+205F, U+3000, U+FEFF). *)
Definition is_whitespace (c : code_unit) : bool :=
  ((9 <=? c) && (c <=? 13) || (c =? 32) || (c =? 160) || (c =? 5760)
   || (8192 <=? c) && (c <=? 8202) || (c =? 8232) || (c =? 8233)
   || (c =? 8239) || (c =? 8287) || (c =? 12288) || (c =? 65279))%N.

(** [/\S/.test(ch)] on a one-character string. *)
Definition non_space (c : code_unit) : bool := negb (is_whitespace c).

(** [\w] is [[A-Za-z0-9_]]. *)
Definition is_word (c : code_unit) : bool :=
  ((48 <=? c) && (c <=? 57) || (65 <=? c) && (c <=? 90) || (c =? 95)
   || (97 <=? c) && (c <=? 122))%N.

Fixpoint eqb (s t : jstring) : bool :=
  match s, t with
  | [], [] => true
  | a :: s', b :: t' => N.eqb a b && eqb s' t'
  | _, _ => false
  end.

(** [s.startsWith(p)]. *)
Fixpoint starts_with (p s : jstring) : bool :=
  match p, s with
  | [], _ => true
  | a :: p', b :: s' => N.eqb a b && starts_with p' s'
  | _ :: _, [] => false
  end.

(** [s.indexOf(p)]: the least position at which [p] occurs in [s]. *)
Fixpoint indexOf (s p : jstring) : option nat :=
  if starts_with p s then Some 0
  else match s with
       | [] => None
       | _ :: s' => option_map S (indexOf s' p)
       end.

(** [s.slice(0, n)] and [s.substring(0, n)] for a non-negative [n]. *)
Definition slice0 (s : jstring) (n : nat) : jstring := firstn n s.
Definition substring0 (s : jstring) (n : nat) : jstring := firstn n s.

(** GetSubstitution for a string pattern (no captures): in the replacement
    text [$$] stands for [$], [$&] for the matched text, [$`] for the text
    before the match and [$'] for the text after it; every other character,
    a [$] before anything else included, is copied. *)
Fixpoint getSubstitution (matched before after repl : jstring) : jstring :=
  match repl with
  | [] => []
  | c :: r =>
      if N.eqb c DOLLAR then
        match r with
        | d :: r' =>
            if N.eqb d DOLLAR then DOLLAR :: getSubstitution matched before after r'
            else if N.eqb d AMPERSAND then matched ++ getSubstitution matched before after r'
            else if N.eqb d BACKTICK then before ++ getSubstitution matched before after r'
            else if N.eqb d APOSTROPHE then after ++ getSubstitution matched before after r'
            else DOLLAR :: getSubstitution matched before after r
        | [] => [DOLLAR]
        end
      else c :: getSubstitution matched before after r
  end.

(** [s.replace(pat, repl)] with a string pattern: only the first occurrence
    is replaced, and [repl] goes through [getSubstitution]. *)
Definition replace (s pat repl : jstring) : jstring :=
  match indexOf s pat with
  | None => s
  | Some i =>
      let before := firstn i s in
      let after := skipn (i + length pat) s in
      before ++ getSubstitution pat before after repl ++ after
  end.

(** [s.search(/\S*$/)]: the regular expression is tried at positions
    0, 1, ...; at a position it matches exactly when everything from there
    to the end of [s] is non-whitespace.  It always matches at [length s]. *)
Fixpoint search_nonspace_tail (s : jstring) : nat :=
  if forallb non_space s then 0
  else match s with
       | [] => 0
       | _ :: s' => S (search_nonspace_tail s')
       end.

(** The body of a character class [[...]] made of plain characters:
    a leading [^] negates, [a-b] is a range, a [-] first or last is itself.
    [None] when the constructor throws (a range out of order) or when the
    body holds a backslash or a closing bracket, whose meaning as pattern
    syntax is not covered here. *)
Fixpoint class_ranges (body : jstring) : option (code_unit -> bool) :=
  match body with
  | [] => Some (fun _ => false)
  | a :: rest =>
      if N.eqb a BACKSLASH || N.eqb a RBRACKET then None
      else
        match rest with
        | d :: b :: rest' =>
            if N.eqb d HYPHEN then
              if N.eqb b BACKSLASH || N.eqb b RBRACKET then None
              else if (b <? a)%N then None
              else match class_ranges rest' with
                   | Some f => Some (fun c => (a <=? c)%N && (c <=? b)%N || f c)
                   | None => None
                   end
            else match class_ranges rest with
                 | Some f => Some (fun c => N.eqb c a || f c)
                 | None => None
                 end
        | _ => match class_ranges rest with
               | Some f => Some (fun c => N.eqb c a || f c)
               | None => None
               end
        end
  end.

Definition char_class (body : jstring) : option (code_unit -> bool) :=
  match body with
  | a :: rest =>
      if N.eqb a CARET
      then option_map (fun f c => negb (f c)) (class_ranges rest)
      else class_ranges body
  | [] => class_ranges body
  end.

(** [/[cls]\w*$/.exec(s)]: the leftmost position whose character is in the
    class and is followed by word characters only up to the end of [s];
    the result is the matched text [match[0]]. *)
Fixpoint exec_token (cls : code_unit -> bool) (s : jstring) : option jstring :=
  match s with
  | [] => None
  | c :: rest =>
      if cls c && forallb is_word rest then Some s else exec_token cls rest
  end.

End JS.

Import JS.


(* ------------------------------------------------------------------ *)
(** ** Values handed over by the host                                   *)
(* ------------------------------------------------------------------ *)

(** A candidate is [Object | string]; an object candidate is opaque here. *)
Inductive candidate : Type :=
| CString (s : jstring)
| CObject (id : nat).

(** The values a data provider can return or resolve to.  A promise is
    described by the way it will settle. *)
Inductive jsval : Type :=
| JUndefined
| JNull
| JBoolean (b : bool)
| JNumber (z : Z)
| JString (s : jstring)
| JArray (items : list candidate)
| JObject (id : nat)
| JPromise (outcome : settlement)
with settlement : Type :=
| Fulfilled (v : jsval)
| Rejected (message : jstring).

Inductive jstype : Type :=
| TUndefined | TObject | TBoolean | TNumber | TString | TFunction.

Definition jstype_eqb (a b : jstype) : bool :=
  match a, b with
  | TUndefined, TUndefined | TObject, TObject | TBoolean, TBoolean
  | TNumber, TNumber | TString, TString | TFunction, TFunction => true
  | _, _ => false
  end.

Definition typeof (v : jsval) : jstype :=
  match v with
  | JUndefined => TUndefined
  | JNull => TObject
  | JBoolean _ => TBoolean
  | JNumber _ => TNumber
  | JString _ => TString
  | JArray _ | JObject _ | JPromise _ => TObject
  end.

(** ToBoolean. *)
Definition truthy (v : jsval) : bool :=
  match v with
  | JUndefined | JNull => false
  | JBoolean b => b
  | JNumber z => negb (Z.eqb z 0)
  | JString s => negb (eqb s [])
  | JArray _ | JObject _ | JPromise _ => true
  end.

(** [v.length], [None] for [undefined]. *)
Definition length_of (v : jsval) : option nat :=
  match v with
  | JArray items => Some (length items)
  | JString s => Some (length s)
  | _ => None
  end.

(** [v instanceof Promise]. *)
Definition instanceof_Promise (v : jsval) : bool :=
  match v with JPromise _ => true | _ => false end.

(** A property of a settings object that the code tests with [!p] and
    [typeof p !== 'function']: missing, some value that is not a function
    (truthy or not), or a function. *)
Inductive jsprop (F : Type) : Type :=
| PAbsent
| PNotFunction (is_truthy : bool)
| PFunction (f : F).
Arguments PAbsent {F}.
Arguments PNotFunction {F} is_truthy.

Definition prop_truthy {F} (p : jsprop F) : bool :=
  match p with
  | PAbsent => false
  | PNotFunction b => b
  | PFunction _ => true
  end.

Definition prop_is_function {F} (p : jsprop F) : bool :=
  match p with PFunction _ => true | _ => false end.

(** A call that either returns or throws. *)
Inductive result (A : Type) : Type :=
| Ok (a : A)
| Throw (message : jstring).
Arguments Throw {A} message.

(* ------------------------------------------------------------------ *)
(** ** Types of the component ([settingType], props, state)             *)
(* ------------------------------------------------------------------ *)

Module Setting.
Record t : Type := Build {
  component : jsprop nat;
  dataProvider : jsprop (jstring -> jsval);
  output : jsprop (candidate -> jstring -> jstring)
}.
End Setting.

Module Props.
(** [trigger] lists the entries of the trigger object in the order of
    [Object.keys]; [onChange] and [onCaretPositionChange] say whether the
    host configured the callback, their calls go to the effect log. *)
Record t : Type := Build {
  trigger : list (jstring * Setting.t);
  loadingComponent : bool;
  minChar : Z;
  onChange : bool;
  onCaretPositionChange : bool;
  value : jstring
}.
End Props.

(** [static defaultProps]: the props the host may leave out. *)
Definition defaultProps (trigger : list (jstring * Setting.t))
    (loadingComponent : bool) : Props.t :=
  {| Props.trigger := trigger;
     Props.loadingComponent := loadingComponent;
     Props.minChar := 1;
     Props.onChange := false;
     Props.onCaretPositionChange := false;
     Props.value := [] |}.

Module State.
Record t : Type := Build {
  top : Z;
  left : Z;
  currentTrigger : option jstring;
  actualToken : jstring;
  data : jsval;
  value : jstring;
  dataLoading : bool;
  selectionEnd : nat;
  selectionStart : nat;
  component : option nat
}.

(** [state: TextareaState = {...}]. *)
Definition initial : t :=
  {| top := 0; left := 0; currentTrigger := None; actualToken := [];
     data := JNull; value := []; dataLoading := false;
     selectionEnd := 0; selectionStart := 0; component := None |}.

(** The partial states passed to [setState]. *)
Definition set_value (v : jstring) (s : t) : t :=
  Build (top s) (left s) (currentTrigger s) (actualToken s) (data s) v
        (dataLoading s) (selectionEnd s) (selectionStart s) (component s).

Definition set_dataLoading (b : bool) (s : t) : t :=
  Build (top s) (left s) (currentTrigger s) (actualToken s) (data s) (value s)
        b (selectionEnd s) (selectionStart s) (component s).

Definition set_data (d : jsval) (s : t) : t :=
  Build (top s) (left s) (currentTrigger s) (actualToken s) d (value s)
        (dataLoading s) (selectionEnd s) (selectionStart s) (component s).

Definition set_top_left (tp lf : Z) (s : t) : t :=
  Build tp lf (currentTrigger s) (actualToken s) (data s) (value s)
        (dataLoading s) (selectionEnd s) (selectionStart s) (component s).

Definition set_token (selEnd selStart : nat) (trig : option jstring)
    (tok : jstring) (s : t) : t :=
  Build (top s) (left s) trig tok (data s) (value s)
        (dataLoading s) selEnd selStart (component s).

Definition set_provided (d : jsval) (c : nat) (s : t) : t :=
  Build (top s) (left s) (currentTrigger s) (actualToken s) d (value s)
        false (selectionEnd s) (selectionStart s) (Some c).
End State.

(* ------------------------------------------------------------------ *)
(** ** The machine: component state, textarea, fetches, effects         *)
(* ------------------------------------------------------------------ *)

(** The textarea element behind [textareaRef]. *)
Record textarea : Type := {
  ta_value : jstring;
  ta_selectionStart : nat;
  ta_selectionEnd : nat
}.

(** Setting the value of a text control moves the cursor to the end of the
    text when the value changes. *)
Definition set_dom_value (v : jstring) (ta : textarea) : textarea :=
  if eqb v (ta_value ta) then ta
  else {| ta_value := v; ta_selectionStart := length v;
          ta_selectionEnd := length v |}.

(** [setSelectionRange(a, b)]: both ends are clamped to the text length. *)
Definition setSelectionRange (a b : nat) (ta : textarea) : textarea :=
  let b' := Nat.min b (length (ta_value ta)) in
  {| ta_value := ta_value ta;
     ta_selectionStart := Nat.min a b';
     ta_selectionEnd := b' |}.

(** What the host and the platform can observe, in order of occurrence. *)
Inductive effect : Type :=
| ValueCommitted (v : jstring)
| DispatchChangeEvent (target_value : jstring)
| OnChange (target_value : jstring)
| Focus
| SetSelectionRange (a b : nat)
| OnCaretPositionChange (position : nat)
| ProviderCalled (token : jstring)
| Uncaught (message : jstring).

(** A fetch in flight: the closure of the [then] callback, which holds
    [providedData] (the promise) and [component]. *)
Record fetch : Type := {
  providedData : jsval;
  then_component : jsprop nat
}.

(** The machine.  [textareaRef] is [None] only before the first render
    stores the ref; the properties of the handlers are stated for a machine
    with its textarea. *)
Record machine : Type := {
  state : State.t;
  textareaRef : option textarea;
  pending : list fetch;
  log : list effect
}.

(** An instance: its props and the [tokenRegExp] field built from them. *)
Record instance : Type := {
  props : Props.t;
  tokenRegExp : code_unit -> bool
}.

Definition emit (e : effect) (m : machine) : machine :=
  {| state := state m; textareaRef := textareaRef m;
     pending := pending m; log := log m ++ [e] |}.

(** [this.setState(partial)]: the state is merged and the controlled
    textarea is rendered again with the state's value. *)
Definition setState (f : State.t -> State.t) (m : machine) : machine :=
  let s' := f (state m) in
  {| state := s';
     textareaRef := option_map (set_dom_value (State.value s')) (textareaRef m);
     pending := pending m; log := log m |}.

Definition add_pending (f : fetch) (m : machine) : machine :=
  {| state := state m; textareaRef := textareaRef m;
     pending := pending m ++ [f]; log := log m |}.

Fixpoint remove_nth {A} (k : nat) (l : list A) : list A :=
  match k, l with
  | _, [] => []
  | 0, _ :: l' => l'
  | S k', x :: l' => x :: remove_nth k' l'
  end.

Definition drop_pending (k : nat) (m : machine) : machine :=
  {| state := state m; textareaRef := textareaRef m;
     pending := remove_nth k (pending m); log := log m |}.

(* ------------------------------------------------------------------ *)
(** ** The methods of [ReactTextareaAutocomplete]                       *)
(* ------------------------------------------------------------------ *)

(** [new RegExp(`[${Object.keys(trigger).join('')}]\\w*$`)]: the class of
    the pattern; the rest of the pattern is [exec_token]. *)
Definition build_tokenRegExp (trigger : list (jstring * Setting.t))
  : option (code_unit -> bool) :=
  char_class (concat (map fst trigger)).

(** The constructor: the pattern is built before [loadingComponent] is
    tested.  [build_tokenRegExp] is [None] when [new RegExp] throws (a
    range out of order) and also for keys that hold a backslash or a
    closing bracket, whose pattern is not covered here; what is proved of
    the constructor is proved for an instance that was built. *)
Definition constructor (p : Props.t) : result instance :=
  match build_tokenRegExp (Props.trigger p) with
  | None => Throw (lit "SyntaxError: Invalid regular expression")
  | Some cls =>
      if negb (Props.loadingComponent p)
      then Throw (lit "RTA: loadingComponent is not defined")
      else Ok {| props := p; tokenRegExp := cls |}
  end.

(** The machine once the component is mounted: [if (value) this.state.value
    = value], and the ref callback has stored the rendered textarea. *)
Definition mounted (p : Props.t) : machine :=
  let s := State.set_value (Props.value p) State.initial in
  {| state := s;
     textareaRef := Some {| ta_value := State.value s;
                            ta_selectionStart := 0; ta_selectionEnd := 0 |};
     pending := []; log := [] |}.

Definition setCaretPosition (position : nat) (m : machine) : machine :=
  match textareaRef m with
  | None => m
  | Some ta =>
      emit (SetSelectionRange position position)
        (emit Focus
           {| state := state m;
              textareaRef := Some (setSelectionRange position position ta);
              pending := pending m; log := log m |})
  end.

Definition getCaretPosition (m : machine) : nat :=
  match textareaRef m with
  | None => 0
  | Some ta => ta_selectionEnd ta
  end.

(** [!currentTrigger]: [null] and the empty string are falsy. *)
Definition trigger_set (t : option jstring) : option jstring :=
  match t with
  | Some (c :: r) => Some (c :: r)
  | _ => None
  end.

(** [this.props.trigger[currentTrigger]]. *)
Fixpoint lookup_trigger (trigger : list (jstring * Setting.t)) (k : jstring)
  : option Setting.t :=
  match trigger with
  | [] => None
  | (k', st) :: rest => if eqb k' k then Some st else lookup_trigger rest k
  end.

Definition _getCurrentTriggerSettings (p : Props.t) (s : State.t)
  : option Setting.t :=
  match trigger_set (State.currentTrigger s) with
  | None => None
  | Some t => lookup_trigger (Props.trigger p) t
  end.

(** [_getSuggestions]: [null] unless a trigger is current and [data] is
    truthy with a truthy [length]. *)
Definition _getSuggestions (s : State.t) : option jsval :=
  match trigger_set (State.currentTrigger s) with
  | None => None
  | Some _ =>
      if negb (truthy (State.data s)) then None
      else match length_of (State.data s) with
           | Some (S _) => Some (State.data s)
           | _ => None
           end
  end.

Definition _closeAutocomplete (m : machine) : machine :=
  match _getSuggestions (state m) with
  | None => m
  | Some _ => setState (State.set_data JNull) m
  end.

(** The function returned by [_getTextToReplace], applied to a candidate. *)
Definition _getTextToReplace (p : Props.t) (s : State.t) (item : candidate)
  : result jstring :=
  match trigger_set (State.currentTrigger s), _getCurrentTriggerSettings p s with
  | Some currentTrigger, Some triggerSettings =>
      let output := Setting.output triggerSettings in
      match item, output with
      | CObject _, PAbsent | CObject _, PNotFunction _ =>
          Throw (lit "RTA: Output function is not defined!")
      | _, PFunction f => Ok (f item currentTrigger)
      | CString _, PNotFunction true =>
          Throw (lit "TypeError: output is not a function")
      | CString c, _ => Ok (currentTrigger ++ c ++ currentTrigger)
      end
  | _, _ => Ok []
  end.

(** The [while] loop of [_onSelect]: [textareaValue[selectionEnd + k]] is
    the [k]-th character of [rest = skipn selectionEnd textareaValue]; the
    loop counts the characters up to the first one that is missing or
    whitespace. *)
Fixpoint scan_nonspace (rest : jstring) : nat :=
  match rest with
  | [] => 0
  | c :: rest' => if non_space c then S (scan_nonspace rest') else 0
  end.

Definition offsetToEndOfToken (textareaValue : jstring) (selectionEnd : nat) : nat :=
  scan_nonspace (skipn selectionEnd textareaValue).

Definition textToModify (textareaValue : jstring) (selectionEnd : nat) : jstring :=
  slice0 textareaValue (selectionEnd + offsetToEndOfToken textareaValue selectionEnd).

Definition startOfTokenPosition (textareaValue : jstring) (selectionEnd : nat) : nat :=
  search_nonspace_tail (textToModify textareaValue selectionEnd).

Definition newCaretPosition (textareaValue : jstring) (selectionEnd : nat)
    (newToken : jstring) : nat :=
  startOfTokenPosition textareaValue selectionEnd + length newToken.

Definition modifiedText (textareaValue : jstring) (selectionEnd : nat)
    (newToken : jstring) : jstring :=
  substring0 (textToModify textareaValue selectionEnd)
             (startOfTokenPosition textareaValue selectionEnd) ++ newToken.

(** The [value] that [_onSelect] puts in the state. *)
Definition selectedValue (textareaValue : jstring) (selectionEnd : nat)
    (newToken : jstring) : jstring :=
  replace textareaValue (textToModify textareaValue selectionEnd)
          (modifiedText textareaValue selectionEnd newToken).

(** The callback given to [setState] by [_onSelect] in [Textarea.jsx].
    [dispatchEvent] is called on [textareaRef] before anything else, so a
    missing ref throws there.  The dispatched event does not reach
    [_changeHandler]: the tests count exactly one [onChange] call for a
    selection. *)
Definition selectCallback (p : Props.t) (caret : nat) (m : machine) : machine :=
  match textareaRef m with
  | None => emit (Uncaught (lit "TypeError: Cannot read property 'dispatchEvent'")) m
  | Some ta =>
      let m1 := emit (DispatchChangeEvent (ta_value ta)) m in
      let m2 := if Props.onChange p then emit (OnChange (ta_value ta)) m1 else m1 in
      setCaretPosition caret m2
  end.

Definition _onSelect (p : Props.t) (newToken : jstring) (m : machine) : machine :=
  let selectionEnd := State.selectionEnd (state m) in
  let textareaValue := State.value (state m) in
  let v := selectedValue textareaValue selectionEnd newToken in
  let m1 := setState (fun s => State.set_dataLoading false (State.set_value v s)) m in
  let m2 := emit (ValueCommitted v) m1 in
  let m3 := _closeAutocomplete m2 in
  selectCallback p (newCaretPosition textareaValue selectionEnd newToken) m3.

(** The earlier revision of the component (second copy of the file), whose
    [_onSelect] also reports the caret from inside the callback. *)
Module Earlier.

Definition selectCallback (p : Props.t) (caret : nat) (m : machine) : machine :=
  match textareaRef m with
  | None => emit (Uncaught (lit "TypeError: Cannot read property 'dispatchEvent'")) m
  | Some ta =>
      let m1 := emit (DispatchChangeEvent (ta_value ta)) m in
      let m2 := if Props.onChange p then emit (OnChange (ta_value ta)) m1 else m1 in
      let m3 := setCaretPosition caret m2 in
      if Props.onCaretPositionChange p
      then emit (OnCaretPositionChange (getCaretPosition m3)) m3
      else m3
  end.

Definition _onSelect (p : Props.t) (newToken : jstring) (m : machine) : machine :=
  let selectionEnd := State.selectionEnd (state m) in
  let textareaValue := State.value (state m) in
  let v := selectedValue textareaValue selectionEnd newToken in
  let m1 := setState (fun s => State.set_dataLoading false (State.set_value v s)) m in
  let m2 := emit (ValueCommitted v) m1 in
  let m3 := _closeAutocomplete m2 in
  selectCallback p (newCaretPosition textareaValue selectionEnd newToken) m3.

End Earlier.

(** [_getValuesFromProvider]: the provider is called with the token, a
    value that is not a promise is wrapped by [Promise.resolve], and the
    [then]/[catch] callbacks wait in [pending] until the promise settles. *)
Definition _getValuesFromProvider (p : Props.t) (m : machine) : machine :=
  match trigger_set (State.currentTrigger (state m)),
        _getCurrentTriggerSettings p (state m) with
  | Some _, Some triggerSettings =>
      match Setting.dataProvider triggerSettings with
      | PFunction dataProvider =>
          let actualToken := State.actualToken (state m) in
          let m1 := setState (State.set_dataLoading true) m in
          let m2 := emit (ProviderCalled actualToken) m1 in
          let provided := dataProvider actualToken in
          let provided' :=
            if instanceof_Promise provided then provided
            else JPromise (Fulfilled provided) in
          add_pending {| providedData := provided';
                         then_component := Setting.component triggerSettings |} m2
      | _ => emit (Uncaught (lit "RTA: Trigger provider has to be a function!")) m
      end
  | _, _ => m
  end.

Definition dataProvider_fails (message : jstring) : effect :=
  Uncaught (lit "RTA: dataProvider fails: " ++ message).

(** The [then] callback of a fetch, run with the value [data] the promise
    was fulfilled with.  Its first test looks at [providedData], the
    promise itself.  An error thrown here is caught by the [catch] callback
    and thrown again, so it ends as an unhandled rejection. *)
Definition onFulfilled (f : fetch) (data : jsval) (m : machine) : machine :=
  if negb (jstype_eqb (typeof (providedData f)) TObject)
  then emit (dataProvider_fails (lit "RTA: Trigger provider has to provide an array!")) m
  else
    match then_component f with
    | PFunction component => setState (State.set_provided data component) m
    | _ => emit (dataProvider_fails (lit "RTA: Component should be defined!")) m
    end.

(** Settlement of the promise of a fetch. *)
Definition settle (f : fetch) (m : machine) : machine :=
  match providedData f with
  | JPromise (Fulfilled data) => onFulfilled f data m
  | JPromise (Rejected message) => emit (dataProvider_fails message) m
  | _ => m
  end.

(** The [change] event of the textarea: [e.target] with its value and
    selection, and the coordinates [getCaretCoordinates] (an external
    library) gives for that caret. *)
Record change_event : Type := {
  e_value : jstring;
  e_selectionStart : nat;
  e_selectionEnd : nat;
  e_top : Z;
  e_left : Z
}.

(** Lines 272-294 of [_changeHandler]: the token before the caret. *)
Inductive token_result : Type :=
| NoToken
| NotConfigured
| Token (currentTrigger actualToken : jstring).

Definition tokenize (i : instance) (value : jstring) (selectionEnd : nat)
  : token_result :=
  let tokenMatch := exec_token (tokenRegExp i) (slice0 value selectionEnd) in
  match tokenMatch with
  | None => NoToken
  | Some lastToken =>
      if (Z.of_nat (length lastToken) <=? Props.minChar (props i))%Z then NoToken
      else
        match lastToken with
        | [] => NoToken
        | c :: actualToken =>
            let triggerChars := map fst (Props.trigger (props i)) in
            match trigger_set (find (fun a => eqb a [c]) triggerChars) with
            | Some currentTrigger => Token currentTrigger actualToken
            | None => NotConfigured
            end
        end
  end.

Definition _changeHandler (i : instance) (e : change_event) (m : machine) : machine :=
  let p := props i in
  let m1 := if Props.onChange p then emit (OnChange (e_value e)) m else m in
  let m2 := if Props.onCaretPositionChange p
            then emit (OnCaretPositionChange (getCaretPosition m1)) m1 else m1 in
  let m3 := emit (ValueCommitted (e_value e))
              (setState (State.set_value (e_value e)) m2) in
  match tokenize i (e_value e) (e_selectionEnd e) with
  | NoToken => _closeAutocomplete m3
  | NotConfigured => m3
  | Token currentTrigger actualToken =>
      let m4 := setState (State.set_top_left (e_top e) (e_left e)) m3 in
      let m5 := setState (State.set_token (e_selectionEnd e) (e_selectionStart e)
                            (Some currentTrigger) actualToken) m4 in
      _getValuesFromProvider p m5
  end.

Definition _selectHandler (p : Props.t) (m : machine) : machine :=
  if Props.onCaretPositionChange p
  then emit (OnCaretPositionChange (getCaretPosition m)) m
  else m.

(** What [render] shows. *)
Definition overlay_shown (s : State.t) : bool :=
  State.dataLoading s ||
  match _getSuggestions s with Some _ => true | None => false end.

Definition list_shown (s : State.t) : bool :=
  match _getSuggestions s, State.component s with
  | Some _, Some _ => true
  | _, _ => false
  end.

Definition loader_shown (s : State.t) : bool := State.dataLoading s.

(* ------------------------------------------------------------------ *)
(** ** Events                                                           *)
(* ------------------------------------------------------------------ *)

Inductive event : Type :=
| Change (e : change_event)
| Select
| Escape
| Settle (k : nat)
| Choose (item : candidate).

(** The user's edit, as the textarea holds it when [change] fires. *)
Definition typed (e : change_event) (m : machine) : machine :=
  {| state := state m;
     textareaRef :=
       option_map (fun _ => {| ta_value := e_value e;
                               ta_selectionStart := e_selectionStart e;
                               ta_selectionEnd := e_selectionEnd e |})
                  (textareaRef m);
     pending := pending m; log := log m |}.

(** Modelled from the spec: the [List] component, which is not part of the
    sources at hand, hands the formatted replacement of the chosen
    candidate to [onSelect] (the user selects one, the Text Splicer gets
    the chosen candidate's formatted replacement string). *)
Definition choose (onSelect : Props.t -> jstring -> machine -> machine)
    (p : Props.t) (item : candidate) (m : machine) : machine :=
  match _getTextToReplace p (state m) item with
  | Ok newToken => onSelect p newToken m
  | Throw message => emit (Uncaught message) m
  end.

(** One event of the event loop.  [Escape] is the callback registered with
    [Listeners.add(KEY_CODES.ESC, ...)]; [Settle k] settles the [k]-th fetch
    in flight. *)
Definition handle_with (onSelect : Props.t -> jstring -> machine -> machine)
    (i : instance) (m : machine) (ev : event) : machine :=
  match ev with
  | Change e => _changeHandler i e (typed e m)
  | Select => _selectHandler (props i) m
  | Escape => _closeAutocomplete m
  | Settle k =>
      match nth_error (pending m) k with
      | Some f => settle f (drop_pending k m)
      | None => m
      end
  | Choose item => choose onSelect (props i) item m
  end.

Definition handle := handle_with _onSelect.

Definition run (i : instance) (m : machine) (evs : list event) : machine :=
  fold_left (handle i) evs m.

(* ------------------------------------------------------------------ *)
(** ** The tokenizer and the splicer in the words of the specification  *)
(* ------------------------------------------------------------------ *)

(** The longest trailing run of non-whitespace characters of [s]. *)
Definition spec_trailing_run (s : jstring) : jstring :=
  skipn (search_nonspace_tail s) s.

(** The tokenizer as the specification words it: the longest trailing
    non-whitespace run ending at the caret, a match when it begins with a
    configured trigger character and is longer than [minChar]. *)
Definition spec_tokenizer (triggerChars : list jstring) (minChar : Z)
    (text : jstring) (caret : nat) : option (jstring * jstring) :=
  match spec_trailing_run (firstn caret text) with
  | [] => None
  | c :: partialToken =>
      if existsb (fun a => eqb a [c]) triggerChars
         && (minChar <? Z.of_nat (length (c :: partialToken)))%Z
      then Some ([c], partialToken)
      else None
  end.

(** The splice as the specification words it: the text with [[start, end_)]
    replaced by the replacement. *)
Definition spec_splice (text : jstring) (start end_ : nat)
    (replacement : jstring) : jstring :=
  firstn start text ++ replacement ++ skipn end_ text.

(** A replacement text without any of the sequences [$$], [$&], [$`] and
    [$'], which [replace] would read as substitution patterns. *)
Definition is_pattern_char (d : code_unit) : bool :=
  N.eqb d DOLLAR || N.eqb d AMPERSAND || N.eqb d BACKTICK || N.eqb d APOSTROPHE.

Fixpoint substitution_free (r : jstring) : bool :=
  match r with
  | [] => true
  | c :: r' =>
      negb (N.eqb c DOLLAR
            && match r' with d :: _ => is_pattern_char d | [] => false end)
      && substitution_free r'
  end.

(* ------------------------------------------------------------------ *)
(** ** Configurations used in the examples                              *)
(* ------------------------------------------------------------------ *)

Definition SmileItemComponent : nat := 0.

(** [{ ':': { dataProvider, component } }] with an asynchronous provider. *)
Definition colon_trigger (dataProvider : jstring -> jsval)
  : list (jstring * Setting.t) :=
  [ (lit ":",
     {| Setting.component := PFunction SmileItemComponent;
        Setting.dataProvider := PFunction dataProvider;
        Setting.output := PAbsent |}) ].

Definition change_to (v : string) (caret : nat) : event :=
  Change {| e_value := lit v; e_selectionStart := caret;
            e_selectionEnd := caret; e_top := 0; e_left := 0 |}.

(** The echo provider: a promise for the one-element list holding the
    token it was asked about. *)
Definition echo_provider (token : jstring) : jsval :=
  JPromise (Fulfilled (JArray [CString token])).

Definition happy_sad (_ : jstring) : jsval :=
  JPromise (Fulfilled (JArray [CString (lit "happy"); CString (lit "sad")])).

(** A provider that returns a number instead of an array. *)
Definition number_provider (_ : jstring) : jsval := JNumber 42.

Definition echo_props : Props.t := defaultProps (colon_trigger echo_provider) true.
Definition happy_props : Props.t := defaultProps (colon_trigger happy_sad) true.
Definition number_props : Props.t := defaultProps (colon_trigger number_provider) true.

(** The instance [constructor] builds for a [colon_trigger]. *)
Definition colon_instance (p : Props.t) : instance :=
  {| props := p; tokenRegExp := fun c => N.eqb c 58 || false |}.

(** The same trigger with both host callbacks configured. *)
Definition listening_props : Props.t :=
  {| Props.trigger := colon_trigger happy_sad;
     Props.loadingComponent := true;
     Props.minChar := 1;
     Props.onChange := true;
     Props.onCaretPositionChange := true;
     Props.value := [] |}.

(** A mounted machine whose session is open on the token at [caret]. *)
Definition session_at (text : string) (caret : nat) (trig token : string)
  : machine :=
  {| state := State.set_token caret caret (Some (lit trig)) (lit token)
                (State.set_value (lit text) State.initial);
     textareaRef := Some {| ta_value := lit text;
                            ta_selectionStart := caret;
                            ta_selectionEnd := caret |};
     pending := []; log := [] |}.

(** No earlier position of [pre ++ tok] starts a match of the token
    pattern: a character of the class there is not followed by word
    characters only. *)
Definition leftmost (cls : code_unit -> bool) (pre tok : jstring) : Prop :=
  forall pre1 d pre2,
    pre = pre1 ++ d :: pre2 -> cls d = true ->
    forallb is_word (pre2 ++ tok) = false.

(** A trigger key the character class takes as it is: one character that
    is none of [^], [-], [\] and []]. *)
Definition plain_key (k : jstring) : Prop :=
  exists c, k = [c] /\ c <> CARET /\ c <> HYPHEN /\ c <> BACKSLASH /\ c <> RBRACKET.

(* ------------------------------------------------------------------ *)
(** ** Prop validation and prop updates                                 *)
(* ------------------------------------------------------------------ *)

(** The loop of [triggerPropsCheck] over [Object.entries(trigger)]: the
    first offending entry decides the error; [None] is [null].  The key of
    an entry is always a string, so only its length is tested. *)
Fixpoint check_entries (triggers : list (jstring * Setting.t)) : option jstring :=
  match triggers with
  | [] => None
  | (triggerChar, settings) :: rest =>
      if negb (Nat.eqb (length triggerChar) 1)
      then Some (lit "Invalid prop trigger. Keys of the object has to be string.")
      else if negb (prop_truthy (Setting.component settings))
              || negb (prop_is_function (Setting.component settings))
      then Some (lit "Invalid prop trigger: component should be defined.")
      else if negb (prop_truthy (Setting.dataProvider settings))
              || negb (prop_is_function (Setting.dataProvider settings))
      then Some (lit "Invalid prop trigger: dataProvider should be defined.")
      else check_entries rest
  end.

Definition triggerPropsCheck (trigger : option (list (jstring * Setting.t)))
  : option jstring :=
  match trigger with
  | None => Some (lit "Invalid prop trigger. Prop missing.")
  | Some triggers => check_entries triggers
  end.

(** The props of [componentWillReceiveProps]; [same_trigger] says whether
    [nextProps.trigger] is the object the instance already has
    ([trigger !== oldTrigger] compares references). *)
Record next_props : Type := {
  nextProps : Props.t;
  same_trigger : bool
}.

(** The trigger objects whose pattern this embedding covers: no key holds
    a backslash or a closing bracket.  For them [build_tokenRegExp] is
    [None] exactly when [new RegExp] throws. *)
Definition covered (trigger : list (jstring * Setting.t)) : bool :=
  forallb (fun c => negb (N.eqb c BACKSLASH || N.eqb c RBRACKET))
          (concat (map fst trigger)).

(** [_update]: the machine after the [setState] of the value, which comes
    first, and then the instance with its new props and pattern, or the
    error of [new RegExp].  The [tokenRegExp] field is always set after
    construction, so the pattern is built again exactly when the trigger
    object is another one.  [None]: the new trigger object is not covered,
    and nothing is said about the outcome. *)
Definition _update (i : instance) (n : next_props) (m : machine)
  : option (machine * result instance) :=
  let value := Props.value (nextProps n) in
  let oldValue := State.value (state m) in
  let m1 := if negb (eqb value oldValue) || eqb oldValue []
            then emit (ValueCommitted value) (setState (State.set_value value) m)
            else m in
  if negb (same_trigger n)
  then if covered (Props.trigger (nextProps n))
       then Some (m1,
                  match build_tokenRegExp (Props.trigger (nextProps n)) with
                  | Some cls => Ok {| props := nextProps n; tokenRegExp := cls |}
                  | None =>
                      Throw (lit "SyntaxError: Range out of order in character class")
                  end)
       else None
  else Some (m1, Ok {| props := nextProps n; tokenRegExp := tokenRegExp i |}).

(** What every machine reached from [mounted] satisfies: the textarea is
    there and holds the state's value, the current trigger, if any, is a
    one-character configured key, and every fetch in flight holds a promise
    and the component of a configured trigger. *)
Definition textarea_in_sync (m : machine) : Prop :=
  exists ta, textareaRef m = Some ta /\ ta_value ta = State.value (state m).

Definition trigger_configured (p : Props.t) (m : machine) : Prop :=
  State.currentTrigger (state m) = None
  \/ exists c, State.currentTrigger (state m) = Some [c]
               /\ In [c] (map fst (Props.trigger p)).

Definition fetch_wellformed (p : Props.t) (f : fetch) : Prop :=
  instanceof_Promise (providedData f) = true
  /\ exists k st, In (k, st) (Props.trigger p)
                  /\ then_component f = Setting.component st.

Definition invariant (p : Props.t) (m : machine) : Prop :=
  textarea_in_sync m /\ trigger_configured p m
  /\ Forall (fetch_wellformed p) (pending m).

(** A trigger object whose first key is [^] and whose other keys are
    plain. *)
Definition caret_first (trigger : list (jstring * Setting.t)) : Prop :=
  exists st rest, trigger = ([CARET], st) :: rest
                  /\ Forall plain_key (map fst rest).

Definition valid_entry (e : jstring * Setting.t) : Prop :=
  length (fst e) = 1
  /\ prop_is_function (Setting.component (snd e)) = true
  /\ prop_is_function (Setting.dataProvider (snd e)) = true.

(** [{ '^': ..., ':': ... }]. *)
Definition caret_colon_trigger : list (jstring * Setting.t) :=
  [ (lit "^",
     {| Setting.component := PFunction SmileItemComponent;
        Setting.dataProvider := PFunction echo_provider;
        Setting.output := PAbsent |});
    (lit ":",
     {| Setting.component := PFunction SmileItemComponent;
        Setting.dataProvider := PFunction echo_provider;
        Setting.output := PAbsent |}) ].

Definition caret_colon_props : Props.t := defaultProps caret_colon_trigger true.

(** A provider whose only candidate is the text of a substitution pattern. *)
Definition dollar_provider (_ : jstring) : jsval :=
  JPromise (Fulfilled (JArray [CString (lit "$&")])).

Definition dollar_props : Props.t := defaultProps (colon_trigger dollar_provider) true.

(** New props with another value and a new trigger object. *)
Definition next_happy_props : next_props :=
  {| nextProps := {| Props.trigger := colon_trigger happy_sad;
                     Props.loadingComponent := true;
                     Props.minChar := 1;
                     Props.onChange := false;
                     Props.onCaretPositionChange := false;
                     Props.value := lit "typed elsewhere" |};
     same_trigger := false |}.

(** A trigger whose provider is not a function, one whose provider's
    promise is rejected, and one with an [output] function. *)
Definition broken_trigger : list (jstring * Setting.t) :=
  [ (lit ":",
     {| Setting.component := PFunction SmileItemComponent;
        Setting.dataProvider := PNotFunction true;
        Setting.output := PAbsent |}) ].

Definition failing_provider (_ : jstring) : jsval :=
  JPromise (Rejected (lit "offline")).

Definition underscore_output (item : candidate) (_ : jstring) : jstring :=
  match item with
  | CString s => lit "__" ++ s ++ lit "__"
  | CObject _ => lit "___happy_face___"
  end.

Definition output_trigger : list (jstring * Setting.t) :=
  [ (lit ":",
     {| Setting.component := PFunction SmileItemComponent;
        Setting.dataProvider := PFunction happy_sad;
        Setting.output := PFunction underscore_output |}) ].

(** [_changeHandler] up to the tokenizer: the host is told, the value is
    put in the state. *)
Definition notified (i : instance) (e : change_event) (m : machine) : machine :=
  let p := props i in
  let m1 := if Props.onChange p then emit (OnChange (e_value e)) m else m in
  let m2 := if Props.onCaretPositionChange p
            then emit (OnCaretPositionChange (getCaretPosition m1)) m1 else m1 in
  emit (ValueCommitted (e_value e)) (setState (State.set_value (e_value e)) m2).

(** The fetch [_getValuesFromProvider] puts in flight for a provider. *)
Definition issued_fetch (st : Setting.t) (dataProvider : jstring -> jsval)
    (actualToken : jstring) : fetch :=
  {| providedData :=
       if instanceof_Promise (dataProvider actualToken)
       then dataProvider actualToken
       else JPromise (Fulfilled (dataProvider actualToken));
     then_component := Setting.component st |}.

(* ================================================================== *)
(** * Properties                                                        *)
(* ================================================================== *)

(** ** Strings *)

Lemma eqb_eq (s t : jstring) : eqb s t = true <-> s = t.
Proof.
  revert t; induction s as [|a s IH]; intros [|b t]; simpl; split;
    try congruence; try reflexivity.
  - intros H. apply andb_true_iff in H as [Hab Hst].
    apply N.eqb_eq in Hab. apply IH in Hst. congruence.
  - intros H. injection H as -> ->.
    rewrite N.eqb_refl. simpl. now apply IH.
Qed.

Lemma eqb_refl (s : jstring) : eqb s s = true.
Proof. now apply eqb_eq. Qed.

Lemma starts_with_firstn (n : nat) (s : jstring) :
  starts_with (firstn n s) s = true.
Proof.
  revert s; induction n as [|n IH]; intros [|a s]; simpl; auto.
  now rewrite N.eqb_refl, IH.
Qed.

Lemma indexOf_firstn (n : nat) (s : jstring) :
  indexOf s (firstn n s) = Some 0.
Proof.
  destruct s as [|a s]; simpl.
  - now rewrite firstn_nil.
  - change (match n with 0 => [] | S n' => a :: firstn n' s end)
      with (firstn n (a :: s)).
    now rewrite (starts_with_firstn n (a :: s)).
Qed.

Lemma skipn_length_firstn (n : nat) (s : jstring) :
  skipn (length (firstn n s)) s = skipn n s.
Proof.
  rewrite length_firstn.
  destruct (Nat.le_ge_cases n (length s)) as [H|H].
  - now rewrite Nat.min_l.
  - rewrite Nat.min_r by assumption.
    rewrite skipn_all. symmetry. now apply skipn_all2.
Qed.

(** Replacing a prefix of a string: the substituted replacement followed
    by the rest of the string. *)
Lemma replace_firstn (n : nat) (s r : jstring) :
  replace s (firstn n s) r =
  getSubstitution (firstn n s) [] (skipn n s) r ++ skipn n s.
Proof.
  unfold replace. rewrite indexOf_firstn. simpl.
  now rewrite skipn_length_firstn.
Qed.

Lemma getSubstitution_free (matched before after r : jstring) :
  substitution_free r = true -> getSubstitution matched before after r = r.
Proof.
  induction r as [|c r IH]; [reflexivity|].
  cbn [substitution_free getSubstitution].
  intros H. apply andb_true_iff in H as [Hc Hr].
  specialize (IH Hr). apply negb_true_iff in Hc.
  destruct (N.eqb c DOLLAR) eqn:Ec.
  - apply N.eqb_eq in Ec. subst c. destruct r as [|d r']; [reflexivity|].
    cbn [andb] in Hc. unfold is_pattern_char in Hc.
    apply orb_false_iff in Hc as [Hc H4].
    apply orb_false_iff in Hc as [Hc H3].
    apply orb_false_iff in Hc as [H1 H2].
    rewrite H1, H2, H3, H4. now rewrite IH.
  - now rewrite IH.
Qed.

Lemma search_nonspace_tail_le (s : jstring) :
  search_nonspace_tail s <= length s.
Proof.
  induction s as [|a s IH]; simpl; [lia|].
  destruct (non_space a && forallb non_space s); lia.
Qed.

Lemma search_nonspace_tail_run (s : jstring) :
  forallb non_space (skipn (search_nonspace_tail s) s) = true.
Proof.
  induction s as [|a s IH]; simpl; [reflexivity|].
  destruct (non_space a && forallb non_space s) eqn:E; simpl; assumption.
Qed.

Lemma search_nonspace_tail_boundary (s : jstring) (k : nat) :
  search_nonspace_tail s = S k ->
  exists c, nth_error s k = Some c /\ is_whitespace c = true.
Proof.
  revert k; induction s as [|a s IH]; intros k; simpl; [discriminate|].
  destruct (non_space a && forallb non_space s) eqn:E; [discriminate|].
  intros H. injection H as H. destruct k as [|k].
  - exists a. split; [reflexivity|].
    pose proof (search_nonspace_tail_run s) as Hrun.
    rewrite H in Hrun. simpl in Hrun. rewrite Hrun, andb_true_r in E.
    unfold non_space in E. now apply negb_false_iff in E.
  - destruct (IH k H) as [c [Hc Hw]]. exists c. now split.
Qed.

(** ** The splicer *)

Lemma scan_nonspace_run (rest : jstring) :
  forallb non_space (firstn (scan_nonspace rest) rest) = true.
Proof.
  induction rest as [|c rest IH]; simpl; [reflexivity|].
  destruct (non_space c) eqn:E; simpl; [now rewrite E|reflexivity].
Qed.

Lemma scan_nonspace_stop (rest : jstring) (c : code_unit) :
  nth_error rest (scan_nonspace rest) = Some c -> is_whitespace c = true.
Proof.
  induction rest as [|a rest IH]; simpl; [discriminate|].
  destruct (non_space a) eqn:E; simpl; [assumption|].
  intros H. injection H as <-. unfold non_space in E.
  now apply negb_false_iff in E.
Qed.

Lemma startOfTokenPosition_le (text : jstring) (caret : nat) :
  startOfTokenPosition text caret <= caret + offsetToEndOfToken text caret
  /\ startOfTokenPosition text caret <= length text.
Proof.
  unfold startOfTokenPosition, textToModify, slice0.
  pose proof (search_nonspace_tail_le
                (firstn (caret + offsetToEndOfToken text caret) text)) as H.
  rewrite length_firstn in H. lia.
Qed.

Lemma modifiedText_eq (text : jstring) (caret : nat) (newToken : jstring) :
  modifiedText text caret newToken =
  firstn (startOfTokenPosition text caret) text ++ newToken.
Proof.
  unfold modifiedText, substring0, textToModify, slice0.
  rewrite firstn_firstn. f_equal. f_equal.
  apply Nat.min_l. apply startOfTokenPosition_le.
Qed.

(** The value computed by [_onSelect]: the substituted [modifiedText]
    followed by everything after the token end. *)
Lemma selectedValue_tail (text : jstring) (caret : nat) (newToken : jstring) :
  selectedValue text caret newToken =
  getSubstitution (textToModify text caret) []
    (skipn (caret + offsetToEndOfToken text caret) text)
    (modifiedText text caret newToken)
  ++ skipn (caret + offsetToEndOfToken text caret) text.
Proof.
  unfold selectedValue, textToModify at 1, slice0. apply replace_firstn.
Qed.

Lemma selectedValue_substitution_free (text : jstring) (caret : nat) (newToken : jstring) :
  substitution_free (modifiedText text caret newToken) = true ->
  selectedValue text caret newToken =
  spec_splice text (startOfTokenPosition text caret)
    (caret + offsetToEndOfToken text caret) newToken.
Proof.
  intros H. rewrite selectedValue_tail.
  rewrite getSubstitution_free by assumption.
  rewrite modifiedText_eq. unfold spec_splice. now rewrite <- app_assoc.
Qed.

(** ** The machine after [_onSelect] *)

Lemma set_dom_value_value (v : jstring) (ta : textarea) :
  ta_value (set_dom_value v ta) = v.
Proof.
  unfold set_dom_value. destruct (eqb v (ta_value ta)) eqn:E; simpl.
  - symmetry. now apply eqb_eq.
  - reflexivity.
Qed.

Lemma set_dom_value_same (ta : textarea) :
  set_dom_value (ta_value ta) ta = ta.
Proof. unfold set_dom_value. now rewrite eqb_refl. Qed.

Lemma closeAutocomplete_suggestions (m : machine) :
  _getSuggestions (state (_closeAutocomplete m)) = None.
Proof.
  unfold _closeAutocomplete.
  destruct (_getSuggestions (state m)) eqn:E; [|assumption].
  unfold _getSuggestions. simpl.
  now destruct (trigger_set (State.currentTrigger (state m))).
Qed.

(** [_closeAutocomplete] touches [data] only. *)
Lemma closeAutocomplete_frame (m : machine) :
  let m' := _closeAutocomplete m in
  State.value (state m') = State.value (state m) /\
  State.dataLoading (state m') = State.dataLoading (state m) /\
  State.currentTrigger (state m') = State.currentTrigger (state m) /\
  State.actualToken (state m') = State.actualToken (state m) /\
  State.selectionEnd (state m') = State.selectionEnd (state m) /\
  State.component (state m') = State.component (state m) /\
  pending m' = pending m /\ log m' = log m.
Proof.
  unfold _closeAutocomplete.
  destruct (_getSuggestions (state m)); simpl; repeat split; reflexivity.
Qed.

Lemma closeAutocomplete_textarea (m : machine) (ta : textarea) :
  textareaRef m = Some ta -> ta_value ta = State.value (state m) ->
  textareaRef (_closeAutocomplete m) = Some ta.
Proof.
  intros Href Hsync. unfold _closeAutocomplete.
  destruct (_getSuggestions (state m)); [|assumption].
  unfold setState. simpl. rewrite Href. simpl.
  now rewrite <- Hsync, set_dom_value_same.
Qed.

(** The whole effect of [_onSelect] on a mounted component. *)
Lemma onSelect_mounted (p : Props.t) (newToken : jstring) (m : machine)
    (ta : textarea) :
  textareaRef m = Some ta ->
  let v := selectedValue (State.value (state m))
             (State.selectionEnd (state m)) newToken in
  let c := newCaretPosition (State.value (state m))
             (State.selectionEnd (state m)) newToken in
  let m' := _onSelect p newToken m in
  State.value (state m') = v /\
  State.dataLoading (state m') = false /\
  _getSuggestions (state m') = None /\
  pending m' = pending m /\
  textareaRef m' = Some (setSelectionRange c c (set_dom_value v ta)) /\
  log m' = log m ++ [ValueCommitted v; DispatchChangeEvent v]
                 ++ (if Props.onChange p then [OnChange v] else [])
                 ++ [Focus; SetSelectionRange c c].
Proof.
  intros Href v c m'.
  set (m1 := setState (fun s => State.set_dataLoading false (State.set_value v s)) m).
  set (m2 := emit (ValueCommitted v) m1).
  assert (Href2 : textareaRef m2 = Some (set_dom_value v ta)).
  { unfold m2, m1, emit, setState. simpl. now rewrite Href. }
  assert (Hsync : ta_value (set_dom_value v ta) = State.value (state m2)).
  { now rewrite set_dom_value_value. }
  pose proof (closeAutocomplete_textarea m2 Href2 Hsync) as Href3.
  pose proof (closeAutocomplete_frame m2) as Hfr. simpl in Hfr.
  destruct Hfr as (Hv & Hl & _ & _ & _ & _ & Hp & Hlog).
  pose proof (closeAutocomplete_suggestions m2) as Hsug.
  assert (Em' : m' = selectCallback p c (_closeAutocomplete m2)) by reflexivity.
  rewrite Em'. unfold selectCallback. rewrite Href3.
  rewrite set_dom_value_value.
  unfold setCaretPosition.
  destruct (Props.onChange p); simpl; rewrite Href3; simpl;
    rewrite Hv, Hl, Hp, Hlog, Hsug; simpl;
    repeat split; try reflexivity;
    rewrite <- !app_assoc; reflexivity.
Qed.

Lemma onSelect_state_value (p : Props.t) (newToken : jstring) (m : machine) :
  State.value (state (_onSelect p newToken m)) =
  selectedValue (State.value (state m)) (State.selectionEnd (state m)) newToken.
Proof.
  unfold _onSelect, selectCallback.
  match goal with
  | |- context [_closeAutocomplete ?x] =>
      pose proof (closeAutocomplete_frame x) as Hfr; simpl in Hfr;
      destruct Hfr as (Hv & _); set (mc := _closeAutocomplete x) in *
  end.
  unfold setCaretPosition.
  destruct (textareaRef mc) eqn:E; simpl;
    [destruct (Props.onChange p); simpl; rewrite E; simpl|]; exact Hv.
Qed.

(** On a mounted component the earlier [_onSelect] is the later one
    followed by the caret report. *)
Lemma Earlier_onSelect_mounted (p : Props.t) (newToken : jstring) (m : machine)
    (ta : textarea) :
  textareaRef m = Some ta ->
  Earlier._onSelect p newToken m =
  let m' := _onSelect p newToken m in
  if Props.onCaretPositionChange p
  then emit (OnCaretPositionChange (getCaretPosition m')) m' else m'.
Proof.
  intros Href. unfold Earlier._onSelect, _onSelect, Earlier.selectCallback,
    selectCallback.
  match goal with
  | |- context [_closeAutocomplete ?x] => set (mc := _closeAutocomplete x)
  end.
  destruct (textareaRef mc) eqn:E; [reflexivity|].
  exfalso. unfold mc, _closeAutocomplete, emit, setState in E.
  match type of E with
  | context [match ?g with Some _ => _ | None => _ end] => destruct g
  end; simpl in E; rewrite Href in E; discriminate.
Qed.

Lemma Earlier_onSelect_state (p : Props.t) (newToken : jstring) (m : machine) :
  state (Earlier._onSelect p newToken m) = state (_onSelect p newToken m).
Proof.
  unfold Earlier._onSelect, _onSelect, Earlier.selectCallback, selectCallback.
  match goal with
  | |- context [_closeAutocomplete ?x] => set (mc := _closeAutocomplete x)
  end.
  destruct (textareaRef mc); [|reflexivity].
  destruct (Props.onCaretPositionChange p); reflexivity.
Qed.

(** When the replacement is inserted as it is, the new caret offset lies
    inside the new text. *)
Lemma newCaretPosition_le (text : jstring) (caret : nat) (newToken : jstring) :
  substitution_free (modifiedText text caret newToken) = true ->
  newCaretPosition text caret newToken
  <= length (selectedValue text caret newToken).
Proof.
  intros H. rewrite selectedValue_substitution_free by assumption.
  unfold spec_splice, newCaretPosition. rewrite !length_app, length_firstn.
  pose proof (startOfTokenPosition_le text caret). lia.
Qed.

(** The slip in [_onSelect]: the replacement text of [replace] is read as a
    substitution pattern, so a doubled dollar sign in the text before the
    token loses one sign although the replacement holds none. *)
Example selectedValue_dollar_in_text :
  selectedValue (lit "pay $$ :a") 9 (lit "__x__") = lit "pay $ __x__"
  /\ spec_splice (lit "pay $$ :a") 7 9 (lit "__x__") = lit "pay $$ __x__".
Proof. split; reflexivity. Qed.

(** C1, as stated, fails on the code: for the text "hello :a world", the
    recorded caret offset 8 and the replacement "__x__", the new text is
    "hello __x__ world" but the new caret offset is 11, not 13. *)
Lemma onSelect_example_caret_not_13 :
  ~ (selectedValue (lit "hello :a world") 8 (lit "__x__") = lit "hello __x__ world"
     /\ newCaretPosition (lit "hello :a world") 8 (lit "__x__") = 13).
Proof. intros [_ H]. vm_compute in H. discriminate. Qed.

(** C1, amended: for every commit in which the kept text before the token
    followed by the replacement holds none of the sequences [$$], [$&],
    [$`] and [$'], the token end is found by scanning forward from the
    recorded caret offset over non-whitespace characters (every scanned
    character is non-whitespace and the character at the end, if any, is
    whitespace), the token start is the start of the
    non-whitespace run that ends there (the run holds no whitespace and the
    character before it, if any, is whitespace), the new text is the old
    one with [start, end) replaced by the replacement, and the new caret
    offset, which the textarea takes, is start + length(replacement); for
    "hello :a world", caret 8 and "__x__" the result is "hello __x__ world"
    with new caret offset 11. *)
Theorem onSelect_splices_token (p : Props.t) (newToken : jstring) (m : machine) :
  let text := State.value (state m) in
  let caret := State.selectionEnd (state m) in
  let end_ := caret + offsetToEndOfToken text caret in
  let start := startOfTokenPosition text caret in
  substitution_free (modifiedText text caret newToken) = true ->
  forallb non_space (firstn (offsetToEndOfToken text caret) (skipn caret text)) = true
  /\ (forall c, nth_error text end_ = Some c -> is_whitespace c = true)
  /\ start <= end_
  /\ forallb non_space (skipn start (firstn end_ text)) = true
  /\ (forall k c, start = S k -> nth_error text k = Some c -> is_whitespace c = true)
  /\ State.value (state (_onSelect p newToken m)) = spec_splice text start end_ newToken
  /\ newCaretPosition text caret newToken = start + length newToken
  /\ (forall ta, textareaRef m = Some ta ->
      option_map ta_selectionEnd (textareaRef (_onSelect p newToken m))
      = Some (start + length newToken))
  /\ selectedValue (lit "hello :a world") 8 (lit "__x__") = lit "hello __x__ world"
  /\ newCaretPosition (lit "hello :a world") 8 (lit "__x__") = 11.
Proof.
  intros text caret end_ start Hfree.
  split; [apply scan_nonspace_run|].
  split.
  { intros c Hc. apply (scan_nonspace_stop (skipn caret text)).
    now rewrite nth_error_skipn. }
  split; [apply startOfTokenPosition_le|].
  split; [apply search_nonspace_tail_run|].
  split.
  { intros k c Hk Hc.
    destruct (search_nonspace_tail_boundary _ Hk) as [c' [Hc' Hw]].
    unfold textToModify, slice0 in Hc'. rewrite nth_error_firstn in Hc'.
    destruct (Nat.ltb k (caret + offsetToEndOfToken text caret));
      [congruence|discriminate]. }
  split.
  { rewrite onSelect_state_value. now apply selectedValue_substitution_free. }
  split; [reflexivity|].
  split; [|split; reflexivity].
  intros ta Href.
  destruct (onSelect_mounted p newToken m Href) as (_ & _ & _ & _ & Hta & _).
  rewrite Hta. simpl. rewrite set_dom_value_value. f_equal.
  apply Nat.min_l. now apply newCaretPosition_le.
Qed.

Lemma onSelect_splices_token_witness :
  let m := session_at "hello :a world" 8 ":" "a" in
  State.value (state (_onSelect echo_props (lit "__x__") m)) = lit "hello __x__ world"
  /\ option_map ta_selectionEnd (textareaRef (_onSelect echo_props (lit "__x__") m))
     = Some 11.
Proof.
  intros m.
  assert (Hfree : substitution_free (modifiedText (State.value (state m))
                     (State.selectionEnd (state m)) (lit "__x__")) = true)
    by reflexivity.
  destruct (onSelect_splices_token echo_props (lit "__x__") m Hfree)
    as (_ & _ & _ & _ & _ & Hv & _ & Hc & _).
  split.
  - rewrite Hv. reflexivity.
  - rewrite (Hc _ eq_refl). reflexivity.
Defined.

(** C10: for every commit of a chosen candidate, in either revision of
    [_onSelect], the text after the token end (the position reached from
    the recorded caret offset by passing the contiguous non-whitespace
    characters) is kept as it is, as the tail of the new text. *)
Theorem onSelect_preserves_tail (p : Props.t) (newToken : jstring) (m : machine) :
  let text := State.value (state m) in
  let caret := State.selectionEnd (state m) in
  let end_ := caret + offsetToEndOfToken text caret in
  forallb non_space (firstn (offsetToEndOfToken text caret) (skipn caret text)) = true
  /\ (forall c, nth_error text end_ = Some c -> is_whitespace c = true)
  /\ (exists replaced,
        State.value (state (_onSelect p newToken m)) = replaced ++ skipn end_ text
        /\ State.value (state (Earlier._onSelect p newToken m))
           = replaced ++ skipn end_ text).
Proof.
  intros text caret end_.
  split; [apply scan_nonspace_run|].
  split.
  { intros c Hc. apply (scan_nonspace_stop (skipn caret text)).
    now rewrite nth_error_skipn. }
  eexists. rewrite Earlier_onSelect_state, onSelect_state_value.
  split; apply selectedValue_tail.
Qed.

(** C9, as stated, fails on the code: with both callbacks configured, the
    commit of ":happy:" on "hi :ha" updates the content, dispatches the
    change event, calls [onChange] and repositions the caret, and ends
    there: [_onSelect] never calls [onCaretPositionChange]. *)
Lemma commit_does_not_report_caret :
  let m := session_at "hi :ha" 6 ":" "ha" in
  Props.onCaretPositionChange listening_props = true
  /\ log (_onSelect listening_props (lit ":happy:") m)
     = [ValueCommitted (lit "hi :happy:"); DispatchChangeEvent (lit "hi :happy:");
        OnChange (lit "hi :happy:"); Focus; SetSelectionRange 10 10]
  /\ forall position,
       ~ In (OnCaretPositionChange position)
            (log (_onSelect listening_props (lit ":happy:") m)).
Proof.
  intros m. split; [reflexivity|]. split; [reflexivity|].
  intros position H. vm_compute in H.
  repeat (destruct H as [H|H]; [discriminate|]). exact H.
Qed.

(** C9, amended: after a candidate is committed on a mounted component,
    the log of effects grows by, in this order: the content update, the
    dispatch of one synthetic change event and one [onChange] call (when
    configured), both on the new full text, and the repositioning of the
    caret to the new offset; the commit itself does not call the caret
    callback.  [onCaretPositionChange] (when configured) is called by the
    select handler of the textarea, and run after the commit it reports the
    caret the textarea then has, the new offset bounded by the length of
    the new text; the earlier copy of [_onSelect] makes that same call
    itself, at the end of the commit. *)
Theorem commit_notification_order (p : Props.t) (newToken : jstring)
    (m : machine) (ta : textarea) :
  textareaRef m = Some ta ->
  let v := selectedValue (State.value (state m))
             (State.selectionEnd (state m)) newToken in
  let c := newCaretPosition (State.value (state m))
             (State.selectionEnd (state m)) newToken in
  log (_onSelect p newToken m)
  = log m ++ [ValueCommitted v; DispatchChangeEvent v]
          ++ (if Props.onChange p then [OnChange v] else [])
          ++ [Focus; SetSelectionRange c c]
  /\ State.value (state (_onSelect p newToken m)) = v
  /\ getCaretPosition (_onSelect p newToken m) = Nat.min c (length v)
  /\ log (_selectHandler p (_onSelect p newToken m))
     = log (_onSelect p newToken m)
       ++ (if Props.onCaretPositionChange p
           then [OnCaretPositionChange (Nat.min c (length v))] else [])
  /\ Earlier._onSelect p newToken m = _selectHandler p (_onSelect p newToken m).
Proof.
  intros Href v c.
  destruct (onSelect_mounted p newToken m Href)
    as (Hv & _ & _ & _ & Hta & Hlog).
  fold v c in Hv, Hta, Hlog.
  assert (Hcaret : getCaretPosition (_onSelect p newToken m)
                   = Nat.min c (length v)).
  { unfold getCaretPosition. rewrite Hta. simpl.
    now rewrite set_dom_value_value. }
  split; [exact Hlog|]. split; [exact Hv|]. split; [exact Hcaret|]. split.
  - unfold _selectHandler. rewrite Hcaret.
    destruct (Props.onCaretPositionChange p); simpl;
      [reflexivity|now rewrite app_nil_r].
  - apply (Earlier_onSelect_mounted p newToken m Href).
Qed.

Lemma commit_notification_order_witness :
  let m := session_at "hi :ha there" 6 ":" "ha" in
  log (_onSelect listening_props (lit ":happy:") m)
  = [ValueCommitted (lit "hi :happy: there");
     DispatchChangeEvent (lit "hi :happy: there");
     OnChange (lit "hi :happy: there"); Focus; SetSelectionRange 10 10]
  /\ log (_selectHandler listening_props
            (_onSelect listening_props (lit ":happy:") m))
     = log (_onSelect listening_props (lit ":happy:") m)
       ++ [OnCaretPositionChange 10].
Proof.
  intros m.
  destruct (@commit_notification_order listening_props (lit ":happy:") m _ eq_refl)
    as (Hlog & _ & _ & Hsel & _).
  split.
  - rewrite Hlog. reflexivity.
  - rewrite Hsel. reflexivity.
Defined.

(** ** Formatting and committing a candidate *)

(** With no [output] function for the current trigger [t], the replacement
    of a string candidate [c] is [t + c + t], and choosing the candidate
    runs [_onSelect] on that replacement. *)
Lemma default_format_replacement (p : Props.t) (m : machine)
    (t : jstring) (st : Setting.t) (c : jstring) :
  trigger_set (State.currentTrigger (state m)) = Some t ->
  lookup_trigger (Props.trigger p) t = Some st ->
  Setting.output st = PAbsent ->
  _getTextToReplace p (state m) (CString c) = Ok (t ++ c ++ t)
  /\ choose _onSelect p (CString c) m = _onSelect p (t ++ c ++ t) m.
Proof.
  intros Ht Hst Hout.
  assert (Hfmt : _getTextToReplace p (state m) (CString c) = Ok (t ++ c ++ t)).
  { unfold _getTextToReplace, _getCurrentTriggerSettings.
    rewrite Ht, Hst, Hout. reflexivity. }
  split; [exact Hfmt|]. unfold choose. now rewrite Hfmt.
Qed.

(** As long as the kept text followed by [t + c + t] holds no substitution
    pattern, the commit puts [t + c + t] in the place of the token and the
    caret of the textarea right after it, wherever the token stands in the
    text. *)
Lemma default_format_commit_splices (p : Props.t) (m : machine)
    (t : jstring) (st : Setting.t) (c : jstring) (ta : textarea) :
  trigger_set (State.currentTrigger (state m)) = Some t ->
  lookup_trigger (Props.trigger p) t = Some st ->
  Setting.output st = PAbsent ->
  textareaRef m = Some ta ->
  let text := State.value (state m) in
  let caret := State.selectionEnd (state m) in
  let start := startOfTokenPosition text caret in
  substitution_free (modifiedText text caret (t ++ c ++ t)) = true ->
  State.value (state (choose _onSelect p (CString c) m))
  = spec_splice text start (caret + offsetToEndOfToken text caret) (t ++ c ++ t)
  /\ option_map ta_selectionEnd (textareaRef (choose _onSelect p (CString c) m))
     = Some (start + length (t ++ c ++ t)).
Proof.
  intros Ht Hst Hout Href text caret start Hfree.
  destruct (default_format_replacement p m c Ht Hst Hout) as (_ & ->).
  split.
  - rewrite onSelect_state_value. now apply selectedValue_substitution_free.
  - destruct (onSelect_mounted p (t ++ c ++ t) m Href) as (_ & _ & _ & _ & Hta & _).
    rewrite Hta. simpl. rewrite set_dom_value_value. f_equal.
    apply Nat.min_l. now apply newCaretPosition_le.
Qed.

(** The scenario of the specification: the trigger ":" whose fetch yields
    ["happy", "sad"], the typed text "hi :ha" with the caret at its end;
    choosing "happy" gives "hi :happy:" with the caret at offset 10, the
    end of the inserted replacement. *)
Example default_format_happy :
  exists i, constructor happy_props = Ok i /\
    let m0 := run i (mounted happy_props) [change_to "hi :ha" 6; Settle 0] in
    let m1 := handle i m0 (Choose (CString (lit "happy"))) in
    State.data (state m0) = JArray [CString (lit "happy"); CString (lit "sad")]
    /\ State.value (state m1) = lit "hi :happy:"
    /\ option_map ta_selectionEnd (textareaRef m1) = Some 10.
Proof.
  eexists. split; [reflexivity|]. vm_compute. repeat split; reflexivity.
Qed.

(** C4, the code at a failing input: the fetch of the trigger ":" yields
    the candidate "$&", the typed text is "hi :ha" with the caret at its
    end.  The default format gives the replacement ":$&:", but the commit
    does not splice it in: the new text is "hi :hi :ha:" where the splice
    of ":$&:" over the token is "hi :$&:", and the caret is put at offset
    7, the end of a replacement inserted as it is. *)
Theorem default_format_dollar_candidate :
  exists i, constructor dollar_props = Ok i /\
    let m0 := run i (mounted dollar_props) [change_to "hi :ha" 6; Settle 0] in
    let m1 := handle i m0 (Choose (CString (lit "$&"))) in
    State.data (state m0) = JArray [CString (lit "$&")]
    /\ _getTextToReplace dollar_props (state m0) (CString (lit "$&"))
       = Ok (lit ":$&:")
    /\ State.value (state m1) = lit "hi :hi :ha:"
    /\ spec_splice (lit "hi :ha") 3 6 (lit ":$&:") = lit "hi :$&:"
    /\ option_map ta_selectionEnd (textareaRef m1) = Some 7.
Proof.
  eexists. split; [reflexivity|]. vm_compute. repeat split; reflexivity.
Qed.

(** ** Settlement of a fetch *)

Lemma getSuggestions_empty_array (s : State.t) (c : nat) :
  _getSuggestions (State.set_provided (JArray []) c s) = None.
Proof.
  unfold _getSuggestions. simpl.
  now destruct (trigger_set (State.currentTrigger s)).
Qed.

(** A fulfilled fetch whose component is a function is stored whatever it
    was fulfilled with and whatever the session looks like by then: the
    test on [providedData] never fails on a promise. *)
Lemma settle_fulfilled (f : fetch) (data : jsval) (c : nat) (m : machine) :
  providedData f = JPromise (Fulfilled data) ->
  then_component f = PFunction c ->
  settle f m = setState (State.set_provided data c) m.
Proof.
  intros Hp Hc. unfold settle, onFulfilled. rewrite Hp. simpl. now rewrite Hc.
Qed.

(** C7: when a fetch (with a component function, as the trigger
    configuration requires) is fulfilled with the empty array, the loading
    flag becomes false, [_getSuggestions] is [null], and [render] shows
    neither the list nor the loader nor the overlay; nothing is thrown. *)
Theorem empty_resolution_closes (i : instance) (m : machine) (k : nat)
    (f : fetch) (c : nat) :
  nth_error (pending m) k = Some f ->
  providedData f = JPromise (Fulfilled (JArray [])) ->
  then_component f = PFunction c ->
  let m' := handle i m (Settle k) in
  State.dataLoading (state m') = false
  /\ _getSuggestions (state m') = None
  /\ list_shown (state m') = false
  /\ loader_shown (state m') = false
  /\ overlay_shown (state m') = false
  /\ log m' = log m.
Proof.
  intros Hk Hp Hc. unfold handle, handle_with. cbv zeta. rewrite Hk.
  rewrite (settle_fulfilled _ _ Hp Hc).
  unfold list_shown, loader_shown, overlay_shown. simpl.
  rewrite getSuggestions_empty_array. repeat split; reflexivity.
Qed.

Lemma empty_resolution_closes_witness :
  let m := {| state := State.set_dataLoading true
                         (state (session_at ":zz" 3 ":" "zz"));
              textareaRef := textareaRef (session_at ":zz" 3 ":" "zz");
              pending := [ {| providedData := JPromise (Fulfilled (JArray []));
                              then_component := PFunction SmileItemComponent |} ];
              log := [] |} in
  overlay_shown (state m) = true
  /\ overlay_shown (state (handle (colon_instance echo_props) m (Settle 0)))
     = false.
Proof.
  intros m. split; [reflexivity|].
  destruct (@empty_resolution_closes (colon_instance echo_props)
              m 0 _ SmileItemComponent eq_refl eq_refl eq_refl)
    as (_ & _ & _ & _ & H & _).
  exact H.
Defined.

(** C8, the code at a failing input: the provider of the trigger ":" returns
    the number 42.  When the fetch settles nothing is thrown: 42 is stored
    as [data], the loading flag is cleared and the overlay is not shown. *)
Theorem number_resolution_is_accepted :
  exists i, constructor number_props = Ok i /\
    let m := run i (mounted number_props) [change_to ":a" 2; Settle 0] in
    log m = [ValueCommitted (lit ":a"); ProviderCalled (lit "a")]
    /\ State.data (state m) = JNumber 42
    /\ State.dataLoading (state m) = false
    /\ overlay_shown (state m) = false.
Proof.
  eexists. split; [reflexivity|]. vm_compute. repeat split; reflexivity.
Qed.

(** C3, as stated, fails on the code: two fetches are issued, for ":a" and
    then for ":ab"; the later one settles first and the earlier one last.
    The final state holds the candidates of the earlier fetch although the
    active token is "ab". *)
Lemma stale_fetch_overwrites :
  exists i, constructor echo_props = Ok i /\
    let m := run i (mounted echo_props)
               [change_to ":a" 2; change_to ":ab" 3; Settle 1; Settle 0] in
    log m = [ValueCommitted (lit ":a"); ProviderCalled (lit "a");
             ValueCommitted (lit ":ab"); ProviderCalled (lit "ab")]
    /\ State.actualToken (state m) = lit "ab"
    /\ State.data (state m) = JArray [CString (lit "a")]
    /\ State.data (state m) <> JArray [CString (lit "ab")]
    /\ pending m = [].
Proof.
  eexists. split; [reflexivity|]. vm_compute.
  repeat split; try reflexivity. discriminate.
Qed.

Lemma handle_settle_fulfilled (i : instance) (m : machine) (k : nat)
    (f : fetch) (data : jsval) (c : nat) :
  nth_error (pending m) k = Some f ->
  providedData f = JPromise (Fulfilled data) ->
  then_component f = PFunction c ->
  let m' := handle i m (Settle k) in
  State.data (state m') = data
  /\ State.component (state m') = Some c
  /\ State.dataLoading (state m') = false
  /\ State.currentTrigger (state m') = State.currentTrigger (state m)
  /\ State.actualToken (state m') = State.actualToken (state m)
  /\ State.value (state m') = State.value (state m)
  /\ pending m' = remove_nth k (pending m)
  /\ log m' = log m.
Proof.
  intros Hk Hp Hc. unfold handle, handle_with. cbv zeta. rewrite Hk.
  rewrite (settle_fulfilled _ _ Hp Hc). simpl. repeat split; reflexivity.
Qed.

(** C3, amended: fetches are applied in the order in which they settle,
    with no test against the active token: a fulfilled fetch (with a
    component function) stores its candidates and its component and clears
    the loading flag whatever the current trigger and token are, so the
    session state reflects the fetch that settled last. *)
Theorem settle_stores_last_settled (i : instance) (m : machine) (k : nat)
    (f : fetch) (data : jsval) (c : nat) :
  nth_error (pending m) k = Some f ->
  providedData f = JPromise (Fulfilled data) ->
  then_component f = PFunction c ->
  let m' := handle i m (Settle k) in
  State.data (state m') = data
  /\ State.component (state m') = Some c
  /\ State.dataLoading (state m') = false
  /\ State.currentTrigger (state m') = State.currentTrigger (state m)
  /\ State.actualToken (state m') = State.actualToken (state m)
  /\ State.value (state m') = State.value (state m)
  /\ pending m' = remove_nth k (pending m)
  /\ log m' = log m.
Proof. exact (@handle_settle_fulfilled i m k f data c). Qed.

Lemma settle_stores_last_settled_witness :
  let i := colon_instance echo_props in
  let m := run i (mounted echo_props)
             [change_to ":a" 2; change_to ":ab" 3; Settle 1] in
  State.actualToken (state m) = lit "ab"
  /\ State.data (state (handle i m (Settle 0))) = JArray [CString (lit "a")].
Proof.
  intros i m. split; [reflexivity|].
  destruct (@settle_stores_last_settled i m 0 _ (JArray [CString (lit "a")])
              SmileItemComponent eq_refl eq_refl eq_refl) as (H & _).
  exact H.
Defined.

(** ** Cancellation *)

(** C6, as stated, fails on the code: after ":a" is typed a fetch is in
    flight; escape leaves the loading flag set, so the loader and the
    overlay stay on screen, and when the fetch settles afterwards its
    candidates are stored and the list is shown. *)
Lemma escape_keeps_loader_and_late_fetch_opens :
  exists i, constructor echo_props = Ok i /\
    let m := run i (mounted echo_props) [change_to ":a" 2; Escape] in
    let m' := handle i m (Settle 0) in
    loader_shown (state m) = true
    /\ overlay_shown (state m) = true
    /\ State.data (state m') = JArray [CString (lit "a")]
    /\ list_shown (state m') = true.
Proof.
  eexists. split; [reflexivity|]. vm_compute. repeat split; reflexivity.
Qed.

(** C6, amended: from every state, escape clears the candidate list and
    nothing else: right after it [_getSuggestions] is [null] and no list is
    shown; the loading flag and the fetches in flight are as before, so the
    loader and the overlay are shown exactly when a fetch was loading; and
    a fetch fulfilled afterwards (with a component function) still stores
    its candidates. *)
Theorem escape_clears_candidates (i : instance) (m : machine) :
  let m' := handle i m Escape in
  _getSuggestions (state m') = None
  /\ list_shown (state m') = false
  /\ State.dataLoading (state m') = State.dataLoading (state m)
  /\ loader_shown (state m') = State.dataLoading (state m)
  /\ overlay_shown (state m') = State.dataLoading (state m)
  /\ pending m' = pending m
  /\ log m' = log m
  /\ (forall k f data c,
        nth_error (pending m') k = Some f ->
        providedData f = JPromise (Fulfilled data) ->
        then_component f = PFunction c ->
        State.data (state (handle i m' (Settle k))) = data).
Proof.
  cbv zeta. change (handle i m Escape) with (_closeAutocomplete m).
  pose proof (closeAutocomplete_suggestions m) as Hs.
  pose proof (closeAutocomplete_frame m) as Hf. cbv zeta in Hf.
  destruct Hf as (_ & Hl & _ & _ & _ & _ & Hp & Hlog).
  unfold list_shown, loader_shown, overlay_shown. rewrite Hs, Hl.
  repeat split; try assumption; try reflexivity.
  - apply orb_false_r.
  - intros k f data c Hk Hpd Hc.
    now destruct (handle_settle_fulfilled i _ k Hk Hpd Hc) as (H & _).
Qed.

Lemma escape_clears_candidates_witness :
  let i := colon_instance echo_props in
  let m := run i (mounted echo_props) [change_to ":a" 2; Settle 0] in
  list_shown (state m) = true
  /\ list_shown (state (handle i m Escape)) = false
  /\ overlay_shown (state (handle i m Escape)) = false.
Proof.
  intros i m. split; [reflexivity|].
  destruct (escape_clears_candidates i m) as (_ & Hl & _ & _ & Ho & _).
  split; [exact Hl|]. rewrite Ho. reflexivity.
Defined.

(** ** The tokenizer *)

Example constructor_colon :
  constructor echo_props = Ok (colon_instance echo_props).
Proof. reflexivity. Qed.

Lemma exec_token_sound (cls : code_unit -> bool) (s tok : jstring) :
  exec_token cls s = Some tok ->
  exists pre c w,
    s = pre ++ c :: w /\ tok = c :: w /\ cls c = true
    /\ forallb is_word w = true /\ leftmost cls pre (c :: w).
Proof.
  induction s as [|a rest IH]; simpl; [discriminate|].
  destruct (cls a && forallb is_word rest) eqn:E.
  - intros H. injection H as <-.
    apply andb_true_iff in E as [Ha Hw].
    exists [], a, rest. repeat split; auto.
    intros pre1 d pre2 Hpre. now destruct pre1.
  - intros H. destruct (IH H) as (pre & c & w & -> & -> & Hc & Hw & Hleft).
    exists (a :: pre), c, w. repeat split; auto.
    intros pre1 d pre2 Hpre Hd. destruct pre1 as [|x pre1]; simpl in Hpre.
    + injection Hpre as <- <-. now rewrite Hd in E.
    + injection Hpre as <- Hpre. now apply (Hleft pre1 d pre2).
Qed.

Lemma exec_token_complete (cls : code_unit -> bool) (pre : jstring)
    (c : code_unit) (w : jstring) :
  cls c = true -> forallb is_word w = true -> leftmost cls pre (c :: w) ->
  exec_token cls (pre ++ c :: w) = Some (c :: w).
Proof.
  intros Hc Hw. induction pre as [|a pre IH]; intros Hleft; simpl.
  - now rewrite Hc, Hw.
  - destruct (cls a) eqn:Ha; simpl.
    + rewrite (Hleft [] a pre eq_refl Ha). apply IH.
      intros pre1 d pre2 ->. now apply (Hleft (a :: pre1) d pre2).
    + apply IH. intros pre1 d pre2 ->. now apply (Hleft (a :: pre1) d pre2).
Qed.

Lemma find_trigger_spec (triggerChars : list jstring) (c : code_unit)
    (t : jstring) :
  trigger_set (find (fun a => eqb a [c]) triggerChars) = Some t
  <-> t = [c] /\ In [c] triggerChars.
Proof.
  split.
  - destruct (find (fun a => eqb a [c]) triggerChars) as [a|] eqn:E;
      [|discriminate].
    apply find_some in E as [Hin Ha]. apply eqb_eq in Ha. subst a.
    simpl. intros H. injection H as <-. now split.
  - intros [-> Hin].
    destruct (find (fun a => eqb a [c]) triggerChars) as [a|] eqn:E.
    + apply find_some in E as [_ Ha]. apply eqb_eq in Ha. now subst a.
    + exfalso. apply (find_none _ _ E) in Hin. now rewrite eqb_refl in Hin.
Qed.

(** C2, as stated, fails on the code in both directions (trigger ":",
    [minChar] 1): in "foo:ab" the trailing non-whitespace run is "foo:ab",
    which does not begin with a trigger character, yet the tokenizer
    matches (":", "ab"); in ":a-b" the run begins with ":" and is longer
    than [minChar], yet the tokenizer finds nothing. *)
Lemma tokenizer_is_not_the_trailing_run :
  exists i, constructor echo_props = Ok i /\
    tokenize i (lit "foo:ab") 6 = Token (lit ":") (lit "ab")
    /\ spec_tokenizer (map fst (Props.trigger (props i))) (Props.minChar (props i))
         (lit "foo:ab") 6 = None
    /\ tokenize i (lit ":a-b") 4 = NoToken
    /\ spec_tokenizer (map fst (Props.trigger (props i))) (Props.minChar (props i))
         (lit ":a-b") 4 = Some (lit ":", lit "a-b").
Proof.
  eexists. split; [reflexivity|]. vm_compute. repeat split; reflexivity.
Qed.

Lemma tokenize_Token_iff (i : instance) (text : jstring) (caret : nat)
    (t partialToken : jstring) :
  tokenize i text caret = Token t partialToken
  <-> exists pre c,
        firstn caret text = pre ++ c :: partialToken
        /\ t = [c]
        /\ tokenRegExp i c = true
        /\ forallb is_word partialToken = true
        /\ leftmost (tokenRegExp i) pre (c :: partialToken)
        /\ (Props.minChar (props i) < Z.of_nat (length (c :: partialToken)))%Z
        /\ In [c] (map fst (Props.trigger (props i))).
Proof.
  unfold tokenize, slice0. split.
  - destruct (exec_token (tokenRegExp i) (firstn caret text)) as [lastToken|] eqn:E;
      [|discriminate].
    destruct (exec_token_sound _ _ E) as (pre & c & w & Hs & -> & Hc & Hw & Hl).
    destruct (Z.of_nat (length (c :: w)) <=? Props.minChar (props i))%Z eqn:Hmin;
      [discriminate|].
    destruct (trigger_set (find (fun a => eqb a [c])
                (map fst (Props.trigger (props i))))) as [t'|] eqn:Hf;
      [|discriminate].
    intros H. injection H as <- <-.
    apply find_trigger_spec in Hf as [-> Hin].
    exists pre, c. apply Z.leb_gt in Hmin. repeat split; assumption.
  - intros (pre & c & Hs & -> & Hc & Hw & Hl & Hmin & Hin).
    rewrite Hs, (exec_token_complete Hc Hw Hl).
    apply Z.leb_gt in Hmin. rewrite Hmin.
    assert (Hf : trigger_set (find (fun a => eqb a [c])
                   (map fst (Props.trigger (props i)))) = Some [c])
      by now apply find_trigger_spec.
    now rewrite Hf.
Qed.

(** C2, amended: for all texts and caret offsets the tokenizer returns the
    match [(t, partialToken)] if and only if the text before the caret ends
    with a character [c] of the trigger character class followed by
    [partialToken], [partialToken] is made of word characters
    ([A-Za-z0-9_]) only, no earlier position starts such a suffix, the
    length of the suffix exceeds [minChar], and [t], the one-character
    string [c], is a configured trigger key. *)
Theorem tokenize_iff (i : instance) (text : jstring) (caret : nat)
    (t partialToken : jstring) :
  tokenize i text caret = Token t partialToken
  <-> exists pre c,
        firstn caret text = pre ++ c :: partialToken
        /\ t = [c]
        /\ tokenRegExp i c = true
        /\ forallb is_word partialToken = true
        /\ leftmost (tokenRegExp i) pre (c :: partialToken)
        /\ (Props.minChar (props i) < Z.of_nat (length (c :: partialToken)))%Z
        /\ In [c] (map fst (Props.trigger (props i))).
Proof. exact (@tokenize_Token_iff i text caret t partialToken). Qed.

(** C5, as stated, fails on the code: with the default [minChar] of 1 and
    the text ":a", the partial token "a" has length 1, which does not
    exceed [minChar], yet the session is opened: the trigger is recorded,
    a fetch is issued and the overlay is shown. *)
Lemma session_opens_at_partial_length_minChar :
  exists i, constructor echo_props = Ok i /\
    let m := handle i (mounted echo_props) (change_to ":a" 2) in
    Props.minChar (props i) = 1%Z
    /\ tokenize i (lit ":a") 2 = Token (lit ":") (lit "a")
    /\ ~ (Props.minChar (props i) < Z.of_nat (length (lit "a")))%Z
    /\ State.currentTrigger (state m) = Some (lit ":")
    /\ length (pending m) = 1
    /\ overlay_shown (state m) = true.
Proof.
  eexists. split; [reflexivity|]. vm_compute.
  repeat split; try reflexivity. discriminate.
Qed.

(** C5, amended: a session is suppressed until the length of the whole
    token, the trigger character together with the text typed after it,
    exceeds [minChar], whose default is 1.  While the token before the
    caret is no longer than [minChar] a change opens nothing: no fetch is
    issued, trigger, token and loading flag stay as they are and no
    candidate list is shown; and a tokenizer match [(t, partialToken)] has
    a one-character [t] and [length t + length partialToken > minChar]. *)
Theorem changeHandler_minChar_gate (i : instance) (e : change_event)
    (m : machine) :
  (forall lastToken,
      exec_token (tokenRegExp i) (firstn (e_selectionEnd e) (e_value e))
      = Some lastToken ->
      (Z.of_nat (length lastToken) <= Props.minChar (props i))%Z ->
      let m' := handle i m (Change e) in
      pending m' = pending m
      /\ State.currentTrigger (state m') = State.currentTrigger (state m)
      /\ State.actualToken (state m') = State.actualToken (state m)
      /\ State.dataLoading (state m') = State.dataLoading (state m)
      /\ _getSuggestions (state m') = None)
  /\ (forall t partialToken,
        tokenize i (e_value e) (e_selectionEnd e) = Token t partialToken ->
        length t = 1
        /\ (Props.minChar (props i) < Z.of_nat (length t + length partialToken))%Z)
  /\ (forall trigger loading, Props.minChar (defaultProps trigger loading) = 1%Z).
Proof.
  split; [|split; [|reflexivity]].
  - intros lastToken Hexec Hlen. cbv zeta.
    change (handle i m (Change e)) with (_changeHandler i e (typed e m)).
    unfold _changeHandler, tokenize, slice0. rewrite Hexec.
    apply Z.leb_le in Hlen. rewrite Hlen.
    match goal with
    | |- context [_closeAutocomplete ?x] =>
        pose proof (closeAutocomplete_suggestions x) as Hs;
        pose proof (closeAutocomplete_frame x) as Hf; cbv zeta in Hf;
        destruct Hf as (_ & Hl & Ht & Ha & _ & _ & Hp & _);
        rewrite Hs, Hl, Ht, Ha, Hp
    end.
    destruct (Props.onChange (props i)), (Props.onCaretPositionChange (props i));
      simpl; repeat split; reflexivity.
  - intros t partialToken H. apply tokenize_Token_iff in H.
    destruct H as (pre & c & _ & -> & _ & _ & _ & Hmin & _).
    split; [reflexivity|]. simpl in *. exact Hmin.
Qed.

Lemma changeHandler_minChar_gate_witness :
  let i := colon_instance echo_props in
  let m := handle i (mounted echo_props) (change_to ":" 1) in
  pending m = [] /\ State.currentTrigger (state m) = None
  /\ (Props.minChar (props i) < Z.of_nat (1 + length (lit "a")))%Z.
Proof.
  intros i m.
  destruct (changeHandler_minChar_gate i
              {| e_value := lit ":"; e_selectionStart := 1; e_selectionEnd := 1;
                 e_top := 0; e_left := 0 |} (mounted echo_props))
    as (Hgate & _).
  destruct (Hgate (lit ":") eq_refl) as (Hp & Ht & _).
  { apply Z.leb_le. reflexivity. }
  destruct (changeHandler_minChar_gate i
              {| e_value := lit ":a"; e_selectionStart := 2; e_selectionEnd := 2;
                 e_top := 0; e_left := 0 |} (mounted echo_props))
    as (_ & Htok & _).
  destruct (Htok (lit ":") (lit "a") eq_refl) as (_ & Hmin).
  split; [exact Hp|]. split; [exact Ht|]. exact Hmin.
Defined.

(** ** The character class of plain trigger keys *)

Lemma concat_plain_head (keys : list jstring) :
  Forall plain_key keys ->
  match concat keys with
  | [] => True
  | d :: _ => N.eqb d HYPHEN = false
  end.
Proof.
  intros H. destruct H as [|k ks (c & -> & _ & Hh & _) _]; simpl; [exact I|].
  now apply N.eqb_neq.
Qed.

Lemma class_ranges_plain (keys : list jstring) :
  Forall plain_key keys ->
  exists f, class_ranges (concat keys) = Some f
            /\ forall c, f c = existsb (fun k => eqb k [c]) keys.
Proof.
  induction 1 as [|k ks (a & -> & _ & _ & Hb & Hr) Hks (f & Hf & Hfc)].
  - exists (fun _ => false). now split.
  - exists (fun c => N.eqb c a || f c). split.
    + pose proof (concat_plain_head Hks) as Hd.
      cbn [concat app]. cbn [class_ranges].
      apply N.eqb_neq in Hb, Hr. rewrite Hb, Hr. cbn [orb].
      destruct (concat ks) as [|d [|b rest']] eqn:E.
      * now rewrite Hf.
      * now rewrite Hf.
      * rewrite Hd. now rewrite Hf.
    + intros c. cbn [existsb eqb]. rewrite Hfc, andb_true_r.
      now rewrite (N.eqb_sym a c).
Qed.

(** For plain trigger keys the pattern is built, and a character is in its
    class exactly when it is a configured trigger key. *)
Lemma build_tokenRegExp_plain (trigger : list (jstring * Setting.t)) :
  Forall plain_key (map fst trigger) ->
  exists cls, build_tokenRegExp trigger = Some cls
              /\ forall c, cls c = true <-> In [c] (map fst trigger).
Proof.
  intros H. destruct (class_ranges_plain H) as (f & Hf & Hfc).
  exists f. split.
  - unfold build_tokenRegExp, char_class.
    destruct H as [|k ks (a & -> & Hcaret & _) Hks]; [exact Hf|].
    cbn [concat app] in *. apply N.eqb_neq in Hcaret. now rewrite Hcaret.
  - intros c. rewrite Hfc, existsb_exists. split.
    + intros (k & Hin & Hk). apply eqb_eq in Hk. now subst k.
    + intros Hin. exists [c]. split; [assumption|apply eqb_refl].
Qed.

(* ================================================================== *)
(** * Further properties of the component                               *)
(* ================================================================== *)

(** ** The change handler *)

Lemma changeHandler_unfold (i : instance) (e : change_event) (m : machine) :
  _changeHandler i e m =
  match tokenize i (e_value e) (e_selectionEnd e) with
  | NoToken => _closeAutocomplete (notified i e m)
  | NotConfigured => notified i e m
  | Token currentTrigger actualToken =>
      _getValuesFromProvider (props i)
        (setState (State.set_token (e_selectionEnd e) (e_selectionStart e)
                     (Some currentTrigger) actualToken)
           (setState (State.set_top_left (e_top e) (e_left e)) (notified i e m)))
  end.
Proof. reflexivity. Qed.

Lemma notified_facts (i : instance) (e : change_event) (m : machine) :
  state (notified i e m) = State.set_value (e_value e) (state m)
  /\ pending (notified i e m) = pending m
  /\ textareaRef (notified i e m)
     = option_map (set_dom_value (e_value e)) (textareaRef m)
  /\ log (notified i e m)
     = log m ++ (if Props.onChange (props i) then [OnChange (e_value e)] else [])
             ++ (if Props.onCaretPositionChange (props i)
                 then [OnCaretPositionChange (getCaretPosition m)] else [])
             ++ [ValueCommitted (e_value e)].
Proof.
  unfold notified.
  destruct (Props.onChange (props i)), (Props.onCaretPositionChange (props i));
    simpl; repeat split; try reflexivity;
    unfold getCaretPosition; simpl; rewrite <- ?app_assoc; reflexivity.
Qed.

Lemma lookup_trigger_In (trigger : list (jstring * Setting.t)) (k : jstring) :
  In k (map fst trigger) ->
  exists st, lookup_trigger trigger k = Some st /\ In (k, st) trigger.
Proof.
  induction trigger as [|[k' st'] rest IH]; simpl; [contradiction|].
  intros H. destruct (eqb k' k) eqn:E.
  - apply eqb_eq in E. subst k'. exists st'. split; [reflexivity|now left].
  - destruct H as [H|H]; [subst k'; now rewrite eqb_refl in E|].
    destruct (IH H) as (st & Hl & Hin). exists st. split; [assumption|now right].
Qed.

(** X1. Whatever the tokenizer finds, a change first calls [onChange] on
    the typed value (when configured), then [onCaretPositionChange] with
    the caret of the textarea (when configured), and stores the typed
    value; after that the log only gains a call of a data provider or the
    error of a provider that is not a function. *)
Theorem change_notifies_first (i : instance) (m : machine) (e : change_event) :
  let m' := handle i m (Change e) in
  State.value (state m') = e_value e
  /\ exists rest,
       log m' = log m
                ++ (if Props.onChange (props i) then [OnChange (e_value e)] else [])
                ++ (if Props.onCaretPositionChange (props i)
                    then [OnCaretPositionChange (getCaretPosition (typed e m))]
                    else [])
                ++ [ValueCommitted (e_value e)] ++ rest
       /\ (rest = []
           \/ (exists actualToken, rest = [ProviderCalled actualToken])
           \/ rest = [Uncaught (lit "RTA: Trigger provider has to be a function!")]).
Proof.
  cbv zeta. change (handle i m (Change e)) with (_changeHandler i e (typed e m)).
  rewrite changeHandler_unfold.
  destruct (notified_facts i e (typed e m)) as (Hs & Hp & Hr & Hl).
  change (log (typed e m)) with (log m) in Hl.
  destruct (tokenize i (e_value e) (e_selectionEnd e)) as [| |t a].
  - destruct (closeAutocomplete_frame (notified i e (typed e m)))
      as (Hv & _ & _ & _ & _ & _ & _ & Hlog).
    rewrite Hv, Hlog, Hs, Hl. split; [reflexivity|].
    exists []. rewrite !app_nil_r. split; [reflexivity|now left].
  - rewrite Hs, Hl. split; [reflexivity|].
    exists []. rewrite !app_nil_r. split; [reflexivity|now left].
  - unfold _getValuesFromProvider.
    match goal with
    | |- context [trigger_set (State.currentTrigger (state ?x))] =>
        set (m5 := x);
        assert (Hs5 : State.value (state m5) = e_value e)
          by (change (State.value (state (notified i e (typed e m))) = e_value e);
              now rewrite Hs);
        assert (Hl5 : log m5 = log (notified i e (typed e m))) by reflexivity
    end.
    clearbody m5.
    destruct (trigger_set (State.currentTrigger (state m5))) as [t'|].
    2:{ rewrite Hs5, Hl5, Hl. split; [reflexivity|].
        exists []. rewrite !app_nil_r. split; [reflexivity|now left]. }
    destruct (_getCurrentTriggerSettings (props i) (state m5)) as [st|].
    2:{ rewrite Hs5, Hl5, Hl. split; [reflexivity|].
        exists []. rewrite !app_nil_r. split; [reflexivity|now left]. }
    destruct (Setting.dataProvider st) as [|b|f]; simpl;
      rewrite ?Hs5, Hl5, Hl; (split; [reflexivity|]).
    + eexists. rewrite <- !app_assoc. split; [reflexivity|]. right. now right.
    + eexists. rewrite <- !app_assoc. split; [reflexivity|]. right. now right.
    + eexists. rewrite <- !app_assoc. split; [reflexivity|]. right. left.
      eexists. reflexivity.
Qed.

Lemma changeHandler_Token (i : instance) (m : machine) (e : change_event)
    (t actualToken : jstring) :
  tokenize i (e_value e) (e_selectionEnd e) = Token t actualToken ->
  let m' := handle i m (Change e) in
  exists st,
    lookup_trigger (Props.trigger (props i)) t = Some st
    /\ State.currentTrigger (state m') = Some t
    /\ State.actualToken (state m') = actualToken
    /\ State.selectionEnd (state m') = e_selectionEnd e
    /\ State.data (state m') = State.data (state m)
    /\ (forall dataProvider,
          Setting.dataProvider st = PFunction dataProvider ->
          State.dataLoading (state m') = true
          /\ pending m' = pending m ++ [issued_fetch st dataProvider actualToken]
          /\ log m' = log (notified i e (typed e m)) ++ [ProviderCalled actualToken])
    /\ (prop_is_function (Setting.dataProvider st) = false ->
          State.dataLoading (state m') = State.dataLoading (state m)
          /\ pending m' = pending m
          /\ log m' = log (notified i e (typed e m))
                      ++ [Uncaught (lit "RTA: Trigger provider has to be a function!")]).
Proof.
  intros Htok. cbv zeta.
  change (handle i m (Change e)) with (_changeHandler i e (typed e m)).
  rewrite changeHandler_unfold, Htok.
  apply tokenize_Token_iff in Htok.
  destruct Htok as (pre & c & _ & -> & _ & _ & _ & _ & Hin).
  destruct (lookup_trigger_In _ _ Hin) as (st & Hst & _).
  destruct (notified_facts i e (typed e m)) as (Hs & Hp & _ & _).
  change (state (typed e m)) with (state m) in Hs.
  change (pending (typed e m)) with (pending m) in Hp.
  set (mn := notified i e (typed e m)) in *. clearbody mn.
  exists st. split; [exact Hst|].
  unfold _getValuesFromProvider, _getCurrentTriggerSettings. simpl.
  rewrite Hst.
  destruct (Setting.dataProvider st) as [|b|f] eqn:Ed; simpl;
    rewrite ?Hs, ?Hp; simpl;
    repeat split; try reflexivity; try discriminate;
    match goal with
    | H : PFunction _ = PFunction _ |- _ => injection H as <-
    end; reflexivity.
Qed.

(** X2. When the tokenizer matches [(t, actualToken)], the settings of [t]
    are always found.  If their provider is a function, the change records
    the trigger, the token and the selection, sets the loading flag, calls
    the provider once with the token and puts exactly one fetch in flight:
    the promise the provider returned, or its value wrapped in a fulfilled
    promise.  If the provider is not a function, the trigger and the token
    are recorded all the same, the error is thrown, the loading flag is
    left alone and no fetch is added. *)
Theorem change_opens_session (i : instance) (m : machine) (e : change_event)
    (t actualToken : jstring) :
  tokenize i (e_value e) (e_selectionEnd e) = Token t actualToken ->
  let m' := handle i m (Change e) in
  exists st,
    lookup_trigger (Props.trigger (props i)) t = Some st
    /\ State.currentTrigger (state m') = Some t
    /\ State.actualToken (state m') = actualToken
    /\ State.selectionEnd (state m') = e_selectionEnd e
    /\ State.data (state m') = State.data (state m)
    /\ (forall dataProvider,
          Setting.dataProvider st = PFunction dataProvider ->
          State.dataLoading (state m') = true
          /\ pending m' = pending m ++ [issued_fetch st dataProvider actualToken]
          /\ log m' = log (notified i e (typed e m)) ++ [ProviderCalled actualToken])
    /\ (prop_is_function (Setting.dataProvider st) = false ->
          State.dataLoading (state m') = State.dataLoading (state m)
          /\ pending m' = pending m
          /\ log m' = log (notified i e (typed e m))
                      ++ [Uncaught (lit "RTA: Trigger provider has to be a function!")]).
Proof. exact (@changeHandler_Token i m e t actualToken). Qed.

Lemma change_opens_session_witness :
  let m := handle (colon_instance echo_props) (mounted echo_props)
             (change_to "hi :ha" 6) in
  State.currentTrigger (state m) = Some (lit ":")
  /\ State.dataLoading (state m) = true
  /\ pending m = [ {| providedData := JPromise (Fulfilled (JArray [CString (lit "ha")]));
                      then_component := PFunction SmileItemComponent |} ].
Proof.
  intros m.
  destruct (@change_opens_session (colon_instance echo_props) (mounted echo_props)
              {| e_value := lit "hi :ha"; e_selectionStart := 6;
                 e_selectionEnd := 6; e_top := 0; e_left := 0 |}
              (lit ":") (lit "ha") eq_refl)
    as (st & Hst & Ht & _ & _ & _ & Hopen & _).
  injection Hst as <-.
  destruct (Hopen echo_provider eq_refl) as (Hl & Hp & _).
  split; [exact Ht|]. split; [exact Hl|]. exact (eq_trans Hp eq_refl).
Defined.

(** ** The tokenizer at its edges *)

Lemma exec_token_after_nonword (cls : code_unit -> bool) (pre : jstring)
    (x : code_unit) :
  is_word x = false ->
  exec_token cls (pre ++ [x]) = if cls x then Some [x] else None.
Proof.
  intros Hx. induction pre as [|a pre IH]; simpl.
  - now destruct (cls x).
  - rewrite forallb_app. simpl. rewrite Hx, andb_false_r, andb_false_r.
    exact IH.
Qed.

(** X3. No session starts when there is nothing before the caret, or, with
    [minChar >= 1], when the character before the caret is not a word
    character (a space, a punctuation mark, the trigger character itself):
    the tokenizer finds no token, the change issues no fetch and no
    candidate list is shown after it. *)
Theorem change_after_nonword_closes (i : instance) (m : machine)
    (e : change_event) :
  firstn (e_selectionEnd e) (e_value e) = []
  \/ ((1 <= Props.minChar (props i))%Z
      /\ exists pre x, firstn (e_selectionEnd e) (e_value e) = pre ++ [x]
                       /\ is_word x = false) ->
  let m' := handle i m (Change e) in
  tokenize i (e_value e) (e_selectionEnd e) = NoToken
  /\ _getSuggestions (state m') = None
  /\ pending m' = pending m
  /\ State.currentTrigger (state m') = State.currentTrigger (state m)
  /\ State.dataLoading (state m') = State.dataLoading (state m).
Proof.
  intros H. cbv zeta.
  assert (Htok : tokenize i (e_value e) (e_selectionEnd e) = NoToken).
  { unfold tokenize, slice0. destruct H as [-> | (Hmin & pre & x & -> & Hx)].
    - reflexivity.
    - rewrite (@exec_token_after_nonword _ _ _ Hx).
      destruct (tokenRegExp i x); [|reflexivity].
      apply Z.leb_le in Hmin. simpl length.
      change (Z.of_nat 1) with 1%Z. now rewrite Hmin. }
  split; [exact Htok|].
  change (handle i m (Change e)) with (_changeHandler i e (typed e m)).
  rewrite changeHandler_unfold, Htok.
  destruct (notified_facts i e (typed e m)) as (Hs & Hp & _ & _).
  destruct (closeAutocomplete_frame (notified i e (typed e m)))
    as (_ & Hl & Ht & _ & _ & _ & Hpe & _).
  rewrite closeAutocomplete_suggestions, Hpe, Hp, Ht, Hl, Hs.
  repeat split; reflexivity.
Qed.

Lemma change_after_nonword_closes_witness :
  let i := colon_instance echo_props in
  let m := run i (mounted echo_props) [change_to ":ab" 3; Settle 0] in
  list_shown (state m) = true
  /\ _getSuggestions (state (handle i m (change_to ":ab " 4))) = None.
Proof.
  intros i m. split; [reflexivity|].
  destruct (@change_after_nonword_closes i m
              {| e_value := lit ":ab "; e_selectionStart := 4;
                 e_selectionEnd := 4; e_top := 0; e_left := 0 |})
    as (_ & H & _).
  - right. split; [apply Z.leb_le; reflexivity|].
    exists (lit ":ab"), 32%N. split; reflexivity.
  - exact H.
Defined.

Lemma constructor_Ok (p : Props.t) (i : instance) :
  constructor p = Ok i ->
  props i = p /\ Props.loadingComponent p = true
  /\ build_tokenRegExp (Props.trigger p) = Some (tokenRegExp i).
Proof.
  unfold constructor.
  destruct (build_tokenRegExp (Props.trigger p)) as [cls|]; [|discriminate].
  destruct (Props.loadingComponent p); simpl; [|discriminate].
  intros H. injection H as <-. simpl. repeat split; reflexivity.
Qed.

(** X4. For an instance constructed from plain trigger keys the guard
    "trigger is not configured" of [_changeHandler] is never taken: the
    tokenizer either finds no token or returns a configured trigger, and it
    returns the trigger [[c]] with the token [w] whenever the text before
    the caret is a configured key [c] followed by the word characters [w],
    longer than [minChar], with no earlier such suffix. *)
Theorem plain_keys_always_configured (p : Props.t) (i : instance)
    (text : jstring) (caret : nat) :
  constructor p = Ok i ->
  Forall plain_key (map fst (Props.trigger p)) ->
  tokenize i text caret <> NotConfigured
  /\ (forall c, tokenRegExp i c = true <-> In [c] (map fst (Props.trigger p))).
Proof.
  intros Hc Hplain. apply constructor_Ok in Hc as (Hp & _ & Hb).
  destruct (build_tokenRegExp_plain _ Hplain) as (cls & Hcls & Hiff).
  rewrite Hb in Hcls. injection Hcls as <-.
  split; [|exact Hiff].
  unfold tokenize.
  destruct (exec_token (tokenRegExp i) (slice0 text caret)) as [lastToken|] eqn:E;
    [|discriminate].
  destruct (exec_token_sound _ _ E) as (pre & c & w & _ & -> & Hc & _ & _).
  destruct (Z.of_nat (length (c :: w)) <=? Props.minChar (props i))%Z;
    [discriminate|].
  assert (Hf : trigger_set (find (fun a => eqb a [c])
                 (map fst (Props.trigger (props i)))) = Some [c]).
  { apply find_trigger_spec. split; [reflexivity|]. rewrite Hp. now apply Hiff. }
  rewrite Hf. discriminate.
Qed.

Lemma plain_keys_always_configured_witness :
  tokenize (colon_instance echo_props) (lit "x:ab") 4 <> NotConfigured.
Proof.
  apply (@plain_keys_always_configured echo_props (colon_instance echo_props)
           (lit "x:ab") 4 eq_refl).
  repeat constructor. exists 58%N. repeat split; discriminate.
Defined.

Lemma existsb_eqb_false (keys : list jstring) (c : code_unit) :
  existsb (fun k => eqb k [c]) keys = false -> ~ In [c] keys.
Proof.
  intros H Hin.
  assert (Ht : existsb (fun k => eqb k [c]) keys = true).
  { apply existsb_exists. exists [c]. split; [assumption|apply eqb_refl]. }
  congruence.
Qed.

(** X5. A trigger object whose first key is [^] turns the character class
    of the pattern into its complement: the pattern is built, a character
    is in the class exactly when it is none of the other (plain) keys, and
    so the tokenizer never returns any configured trigger but [^]. *)
Theorem caret_key_negates_class (p : Props.t) (i : instance) :
  constructor p = Ok i ->
  caret_first (Props.trigger p) ->
  (forall c, tokenRegExp i c = true
             <-> ~ In [c] (tl (map fst (Props.trigger p))))
  /\ (forall text caret t actualToken,
         tokenize i text caret = Token t actualToken -> t = [CARET]).
Proof.
  intros Hc (st & rest & Htrig & Hplain).
  apply constructor_Ok in Hc as (Hp & _ & Hb).
  destruct (class_ranges_plain Hplain) as (f & Hf & Hfc).
  unfold build_tokenRegExp, char_class in Hb. rewrite Htrig in Hb.
  cbn [map fst concat app] in Hb.
  change (N.eqb CARET CARET) with true in Hb. cbv iota in Hb.
  assert (Hcls : (fun c => negb (f c)) = tokenRegExp i).
  { assert (Hb' : option_map (fun (g : code_unit -> bool) c => negb (g c)) (Some f)
                  = Some (tokenRegExp i)) by (rewrite <- Hf; exact Hb).
    now injection Hb'. }
  clear Hb.
  assert (Hiff : forall c, tokenRegExp i c = true <-> ~ In [c] (map fst rest)).
  { intros c. rewrite <- Hcls, Hfc. split.
    - intros H. apply negb_true_iff in H. now apply existsb_eqb_false.
    - intros H. apply negb_true_iff.
      destruct (existsb (fun k => eqb k [c]) (map fst rest)) eqn:E; [|reflexivity].
      exfalso. apply H. apply existsb_exists in E as (k & Hin & Hk).
      apply eqb_eq in Hk. now subst k. }
  split.
  - intros c. rewrite Htrig. simpl. apply Hiff.
  - intros text caret t actualToken Htok. apply tokenize_Token_iff in Htok.
    destruct Htok as (pre & c & _ & -> & Hcl & _ & _ & _ & Hin).
    rewrite Hp, Htrig in Hin. simpl in Hin.
    destruct Hin as [Hin|Hin]; [now symmetry|].
    exfalso. now apply (Hiff c).
Qed.

Lemma caret_key_negates_class_witness :
  exists i, constructor caret_colon_props = Ok i
    /\ tokenize i (lit ":ab") 3 = NotConfigured
    /\ forall t actualToken,
         tokenize i (lit "^ab") 3 = Token t actualToken -> t = [CARET].
Proof.
  eexists. split; [reflexivity|]. split; [reflexivity|].
  intros t actualToken.
  refine (proj2 (@caret_key_negates_class caret_colon_props _ eq_refl _)
            (lit "^ab") 3 t actualToken).
  eexists _, _. split; [reflexivity|].
  repeat constructor. exists 58%N. repeat split; discriminate.
Defined.

(** ** The splicer at its edges *)

Lemma search_nonspace_tail_all (s : jstring) :
  forallb non_space s = true -> search_nonspace_tail s = 0.
Proof. intros H. destruct s; simpl in *; [reflexivity|now rewrite H]. Qed.

Lemma search_nonspace_tail_app (p t : jstring) :
  forallb non_space t = true ->
  search_nonspace_tail (p ++ t) = search_nonspace_tail p.
Proof.
  intros Ht. induction p as [|a p IH]; simpl.
  - rewrite search_nonspace_tail_all by assumption. reflexivity.
  - rewrite forallb_app, Ht, andb_true_r, IH. reflexivity.
Qed.

Lemma firstn_search_has_space (s : jstring) :
  forallb non_space s = false ->
  forallb non_space (firstn (search_nonspace_tail s) s) = false.
Proof.
  induction s as [|a s IH]; simpl; [discriminate|].
  intros H. rewrite H. simpl.
  destruct (non_space a); simpl in *; [now apply IH|reflexivity].
Qed.

Lemma search_nonspace_tail_firstn (s : jstring) :
  search_nonspace_tail (firstn (search_nonspace_tail s) s)
  = search_nonspace_tail s.
Proof.
  induction s as [|a s IH]; simpl; [reflexivity|].
  destruct (non_space a && forallb non_space s) eqn:E; [reflexivity|].
  simpl. destruct (non_space a) eqn:Ea; simpl in *.
  - rewrite (firstn_search_has_space _ E). now rewrite IH.
  - now rewrite IH.
Qed.

Lemma scan_nonspace_tail_zero (text : jstring) (caret : nat) :
  scan_nonspace (skipn (caret + offsetToEndOfToken text caret) text) = 0.
Proof.
  destruct (skipn (caret + offsetToEndOfToken text caret) text) as [|c r] eqn:E;
    [reflexivity|].
  simpl.
  assert (Hc : nth_error text (caret + offsetToEndOfToken text caret + 0) = Some c)
    by (rewrite <- nth_error_skipn, E; reflexivity).
  rewrite Nat.add_0_r in Hc.
  assert (Hw : is_whitespace c = true).
  { apply (scan_nonspace_stop (skipn caret text)). now rewrite nth_error_skipn. }
  unfold non_space. now rewrite Hw.
Qed.

(** X6. Committing is idempotent: when the replacement holds no whitespace
    and the kept text with the replacement holds no substitution pattern,
    committing the same replacement again on the new text at the new caret
    offset gives the same text and the same caret offset. *)
Theorem recommit_is_identity (text : jstring) (caret : nat) (newToken : jstring) :
  substitution_free (modifiedText text caret newToken) = true ->
  forallb non_space newToken = true ->
  let text' := selectedValue text caret newToken in
  let caret' := newCaretPosition text caret newToken in
  selectedValue text' caret' newToken = text'
  /\ newCaretPosition text' caret' newToken = caret'.
Proof.
  intros Hfree Hns. cbv zeta.
  pose proof (startOfTokenPosition_le text caret) as [_ Hle].
  set (start := startOfTokenPosition text caret) in *.
  set (end_ := caret + offsetToEndOfToken text caret).
  set (pre := firstn start text).
  assert (Hpre : length pre = start) by (unfold pre; rewrite length_firstn; lia).
  assert (Htext' : selectedValue text caret newToken
                   = (pre ++ newToken) ++ skipn end_ text).
  { rewrite selectedValue_substitution_free by assumption.
    unfold spec_splice. fold start end_ pre. now rewrite app_assoc. }
  assert (Hcaret' : newCaretPosition text caret newToken = length (pre ++ newToken)).
  { unfold newCaretPosition. fold start. rewrite length_app. lia. }
  rewrite Htext', Hcaret'.
  set (pm := pre ++ newToken) in *. set (tail := skipn end_ text) in *.
  assert (Hskip : skipn (length pm) (pm ++ tail) = tail).
  { rewrite skipn_app, skipn_all, Nat.sub_diag. reflexivity. }
  assert (Hoff : offsetToEndOfToken (pm ++ tail) (length pm) = 0).
  { unfold offsetToEndOfToken. rewrite Hskip. apply scan_nonspace_tail_zero. }
  assert (Htm : textToModify (pm ++ tail) (length pm) = pm).
  { unfold textToModify, slice0. rewrite Hoff, Nat.add_0_r.
    rewrite firstn_app, firstn_all, Nat.sub_diag. simpl. apply app_nil_r. }
  assert (Hstart : startOfTokenPosition (pm ++ tail) (length pm) = start).
  { unfold startOfTokenPosition. rewrite Htm. unfold pm.
    rewrite search_nonspace_tail_app by assumption.
    unfold pre, start, startOfTokenPosition.
    assert (Hpt : firstn (search_nonspace_tail (textToModify text caret)) text
                  = firstn (search_nonspace_tail (textToModify text caret))
                      (textToModify text caret)).
    { unfold textToModify at 3, slice0. rewrite firstn_firstn. f_equal.
      symmetry. apply Nat.min_l. apply (startOfTokenPosition_le text caret). }
    rewrite Hpt. apply search_nonspace_tail_firstn. }
  assert (Hmod : modifiedText (pm ++ tail) (length pm) newToken = pm).
  { unfold modifiedText, substring0. rewrite Htm, Hstart. unfold pm.
    rewrite firstn_app, Hpre, Nat.sub_diag, firstn_all2 by lia.
    simpl. now rewrite app_nil_r. }
  split.
  - rewrite selectedValue_tail, Hmod, Hoff, Nat.add_0_r, Hskip.
    rewrite getSubstitution_free; [reflexivity|].
    unfold pm, pre, start. now rewrite <- modifiedText_eq.
  - unfold newCaretPosition. rewrite Hstart. unfold pm.
    rewrite length_app. lia.
Qed.

Lemma recommit_is_identity_witness :
  selectedValue (lit "hi :happy: there") 10 (lit ":happy:")
  = lit "hi :happy: there"
  /\ selectedValue (lit "hi :ha there") 6 (lit ":happy:")
     = lit "hi :happy: there".
Proof.
  split; [|reflexivity].
  destruct (@recommit_is_identity (lit "hi :ha there") 6 (lit ":happy:")
              eq_refl eq_refl) as [H _].
  exact H.
Defined.

(** X7. The recorded caret at the edges.  With the caret at or after the
    end of the text, the replaced token is the trailing non-whitespace run
    of the whole text.  With the caret at 0 before a whitespace character
    or in an empty text, nothing is replaced and the replacement is put in
    front of the text.  (The replacement text holds no substitution
    pattern.) *)
Theorem commit_at_edge_carets (text newToken : jstring) (caret : nat) :
  substitution_free (modifiedText text caret newToken) = true ->
  (length text <= caret ->
     selectedValue text caret newToken
     = firstn (search_nonspace_tail text) text ++ newToken
     /\ newCaretPosition text caret newToken
        = search_nonspace_tail text + length newToken)
  /\ (caret = 0 ->
      (forall c, nth_error text 0 = Some c -> is_whitespace c = true) ->
      selectedValue text caret newToken = newToken ++ text
      /\ newCaretPosition text caret newToken = length newToken).
Proof.
  intros Hfree.
  rewrite selectedValue_substitution_free by assumption. split.
  - intros Hlen.
    assert (Hoff : offsetToEndOfToken text caret = 0).
    { unfold offsetToEndOfToken. now rewrite skipn_all2. }
    assert (Htm : textToModify text caret = text).
    { unfold textToModify, slice0. apply firstn_all2. lia. }
    unfold spec_splice, newCaretPosition, startOfTokenPosition.
    rewrite Htm, Hoff, skipn_all2 by lia. now rewrite app_nil_r.
  - intros -> Hws.
    assert (Hoff : offsetToEndOfToken text 0 = 0).
    { unfold offsetToEndOfToken. simpl. destruct text as [|c r]; [reflexivity|].
      simpl. unfold non_space. now rewrite (Hws c eq_refl). }
    unfold spec_splice, newCaretPosition, startOfTokenPosition, textToModify,
      slice0.
    rewrite Hoff. simpl. split; reflexivity.
Qed.

Lemma commit_at_edge_carets_witness :
  selectedValue (lit "some test :a") 99 (lit "__x__") = lit "some test __x__"
  /\ selectedValue (lit " world") 0 (lit "__x__") = lit "__x__ world".
Proof.
  destruct (@commit_at_edge_carets (lit "some test :a") (lit "__x__") 99 eq_refl)
    as [H1 _].
  destruct (@commit_at_edge_carets (lit " world") (lit "__x__") 0 eq_refl)
    as [_ H2].
  split.
  - destruct H1 as [H _]; [apply Nat.leb_le; reflexivity|]. rewrite H. reflexivity.
  - destruct (H2 eq_refl) as [H _].
    + intros c Hc. injection Hc as <-. reflexivity.
    + exact H.
Defined.

Lemma onSelect_frame (p : Props.t) (newToken : jstring) (m : machine) :
  let m' := _onSelect p newToken m in
  State.dataLoading (state m') = false
  /\ _getSuggestions (state m') = None
  /\ overlay_shown (state m') = false
  /\ State.currentTrigger (state m') = State.currentTrigger (state m)
  /\ State.actualToken (state m') = State.actualToken (state m)
  /\ State.selectionEnd (state m') = State.selectionEnd (state m)
  /\ pending m' = pending m.
Proof.
  cbv zeta.
  assert (Hstate : exists mc,
            _onSelect p newToken m
            = selectCallback p (newCaretPosition (State.value (state m))
                                  (State.selectionEnd (state m)) newToken)
                (_closeAutocomplete mc)
            /\ State.dataLoading (state mc) = false
            /\ State.currentTrigger (state mc) = State.currentTrigger (state m)
            /\ State.actualToken (state mc) = State.actualToken (state m)
            /\ State.selectionEnd (state mc) = State.selectionEnd (state m)
            /\ pending mc = pending m).
  { eexists. split; [reflexivity|]. simpl. repeat split; reflexivity. }
  destruct Hstate as (mc & -> & Hl & Ht & Ha & Hse & Hp).
  pose proof (closeAutocomplete_suggestions mc) as Hsug.
  destruct (closeAutocomplete_frame mc)
    as (_ & Hl' & Ht' & Ha' & Hse' & _ & Hp' & _).
  set (mcl := _closeAutocomplete mc) in *. clearbody mcl.
  assert (Hsc : state (selectCallback p
                         (newCaretPosition (State.value (state m))
                            (State.selectionEnd (state m)) newToken) mcl)
                = state mcl).
  { unfold selectCallback, setCaretPosition.
    destruct (textareaRef mcl) eqn:E; [|reflexivity].
    destruct (Props.onChange p); simpl; rewrite E; reflexivity. }
  assert (Hpc : pending (selectCallback p
                           (newCaretPosition (State.value (state m))
                              (State.selectionEnd (state m)) newToken) mcl)
                = pending mcl).
  { unfold selectCallback, setCaretPosition.
    destruct (textareaRef mcl) eqn:E; [|reflexivity].
    destruct (Props.onChange p); simpl; rewrite E; reflexivity. }
  unfold overlay_shown. rewrite Hsc, Hpc, Hsug, Hl', Hl, Ht', Ht, Ha', Ha, Hse',
    Hse, Hp', Hp.
  repeat split; reflexivity.
Qed.

(** X8. On a mounted component, committing closes the session from every
    state: the loading flag is cleared, no candidate list and no overlay
    are shown, and the textarea holds the new value of the state, while the
    trigger, the token, the recorded selection end and the fetches in
    flight stay as they were. *)
Theorem commit_closes_session (p : Props.t) (newToken : jstring) (m : machine)
    (ta : textarea) :
  textareaRef m = Some ta ->
  let m' := _onSelect p newToken m in
  State.dataLoading (state m') = false
  /\ _getSuggestions (state m') = None
  /\ overlay_shown (state m') = false
  /\ State.currentTrigger (state m') = State.currentTrigger (state m)
  /\ State.actualToken (state m') = State.actualToken (state m)
  /\ State.selectionEnd (state m') = State.selectionEnd (state m)
  /\ pending m' = pending m
  /\ textarea_in_sync m'.
Proof.
  intros Href. cbv zeta.
  destruct (onSelect_frame p newToken m) as (Hl & Hs & Ho & Ht & Ha & Hse & Hp).
  repeat split; try assumption.
  destruct (onSelect_mounted p newToken m Href) as (Hv & _ & _ & _ & Hta & _).
  eexists. split; [exact Hta|]. simpl. now rewrite set_dom_value_value, Hv.
Qed.

Lemma commit_closes_session_witness :
  let m := run (colon_instance echo_props) (mounted echo_props)
             [change_to ":a" 2; change_to ":ab" 3; Settle 0] in
  overlay_shown (state m) = true
  /\ overlay_shown (state (_onSelect echo_props (lit ":a:") m)) = false
  /\ length (pending (_onSelect echo_props (lit ":a:") m)) = 1.
Proof.
  intros m.
  assert (Href : exists ta, textareaRef m = Some ta)
    by (vm_compute; eexists; reflexivity).
  destruct Href as (ta & Href).
  destruct (@commit_closes_session echo_props (lit ":a:") m ta Href)
    as (_ & _ & Ho & _ & _ & _ & Hp & _).
  split; [vm_compute; reflexivity|]. split; [exact Ho|].
  rewrite Hp. vm_compute. reflexivity.
Defined.

(** ** Settlement: failure and success *)

(** X9. A fetch that fails leaves the session as it is.  When its promise
    is rejected, or is fulfilled while the trigger's component is not a
    function, the error "RTA: dataProvider fails: ..." with the cause is
    thrown and the state is untouched: in particular a loading flag that
    was set stays set and the loader stays on screen. *)
Theorem failed_fetch_leaves_state (i : instance) (m : machine) (k : nat)
    (f : fetch) :
  nth_error (pending m) k = Some f ->
  let m' := handle i m (Settle k) in
  (forall message,
      providedData f = JPromise (Rejected message) ->
      state m' = state m
      /\ pending m' = remove_nth k (pending m)
      /\ log m' = log m ++ [Uncaught (lit "RTA: dataProvider fails: " ++ message)])
  /\ (forall data,
        providedData f = JPromise (Fulfilled data) ->
        prop_is_function (then_component f) = false ->
        state m' = state m
        /\ pending m' = remove_nth k (pending m)
        /\ log m' = log m ++ [Uncaught (lit "RTA: dataProvider fails: "
                                         ++ lit "RTA: Component should be defined!")]).
Proof.
  intros Hk. cbv zeta. unfold handle, handle_with. rewrite Hk. split.
  - intros message Hp. unfold settle. rewrite Hp. repeat split; reflexivity.
  - intros data Hp Hc. unfold settle, onFulfilled. rewrite Hp. simpl.
    destruct (then_component f); try discriminate; repeat split; reflexivity.
Qed.

Lemma failed_fetch_leaves_state_witness :
  let p := defaultProps (colon_trigger failing_provider) true in
  let m := run (colon_instance p) (mounted p) [change_to ":a" 2; Settle 0] in
  loader_shown (state m) = true
  /\ log m = [ValueCommitted (lit ":a"); ProviderCalled (lit "a");
              Uncaught (lit "RTA: dataProvider fails: offline")].
Proof.
  intros p m.
  destruct (@failed_fetch_leaves_state (colon_instance p)
              (handle (colon_instance p) (mounted p) (change_to ":a" 2)) 0 _ eq_refl)
    as (Hrej & _).
  destruct (Hrej (lit "offline") eq_refl) as (Hs & _ & Hl).
  split.
  - exact (eq_trans (f_equal loader_shown Hs) eq_refl).
  - exact (eq_trans Hl eq_refl).
Defined.

(** X10. While a trigger is current, a fetch fulfilled with a non-empty
    array (for a trigger whose component is a function) opens the list:
    [_getSuggestions] returns exactly that array, the list and the overlay
    are shown and the loader is not. *)
Theorem fulfilled_fetch_opens_list (i : instance) (m : machine) (k : nat)
    (f : fetch) (item : candidate) (items : list candidate) (c : nat) (t : jstring) :
  nth_error (pending m) k = Some f ->
  providedData f = JPromise (Fulfilled (JArray (item :: items))) ->
  then_component f = PFunction c ->
  trigger_set (State.currentTrigger (state m)) = Some t ->
  let m' := handle i m (Settle k) in
  _getSuggestions (state m') = Some (JArray (item :: items))
  /\ list_shown (state m') = true
  /\ overlay_shown (state m') = true
  /\ loader_shown (state m') = false.
Proof.
  intros Hk Hp Hc Ht. cbv zeta. unfold handle, handle_with. rewrite Hk.
  rewrite (settle_fulfilled _ _ Hp Hc).
  unfold list_shown, overlay_shown, loader_shown, _getSuggestions. simpl.
  rewrite Ht. simpl. repeat split; reflexivity.
Qed.

Lemma fulfilled_fetch_opens_list_witness :
  let i := colon_instance happy_props in
  let m := handle i (mounted happy_props) (change_to "hi :ha" 6) in
  list_shown (state m) = false
  /\ list_shown (state (handle i m (Settle 0))) = true.
Proof.
  intros i m. split; [reflexivity|].
  destruct (@fulfilled_fetch_opens_list i m 0 _ (CString (lit "happy"))
              [CString (lit "sad")] SmileItemComponent (lit ":")
              eq_refl eq_refl eq_refl eq_refl) as (_ & H & _).
  exact H.
Defined.

(** ** Formatting a candidate *)

(** X11. With a current trigger [t] that is configured: an object candidate
    is formatted exactly when [output] is a function, and then by
    [output(item, t)]; without such a function the call throws "RTA: Output
    function is not defined!".  A string candidate goes through [output] as
    well when it is a function.  Without a current trigger every candidate
    is formatted as the empty string. *)
Theorem getTextToReplace_cases (p : Props.t) (s : State.t) (item : candidate) :
  (forall t st,
      trigger_set (State.currentTrigger s) = Some t ->
      lookup_trigger (Props.trigger p) t = Some st ->
      (forall f, Setting.output st = PFunction f ->
                 _getTextToReplace p s item = Ok (f item t))
      /\ (forall id, item = CObject id ->
                     prop_is_function (Setting.output st) = false ->
                     _getTextToReplace p s item
                     = Throw (lit "RTA: Output function is not defined!")))
  /\ (trigger_set (State.currentTrigger s) = None ->
      _getTextToReplace p s item = Ok []).
Proof.
  split.
  - intros t st Ht Hst. unfold _getTextToReplace, _getCurrentTriggerSettings.
    rewrite Ht, Hst. split.
    + intros f ->. now destruct item.
    + intros id -> Hf. destruct (Setting.output st); try discriminate; reflexivity.
  - intros Ht. unfold _getTextToReplace. now rewrite Ht.
Qed.

Lemma getTextToReplace_cases_witness :
  let p := defaultProps output_trigger true in
  _getTextToReplace p (state (session_at "hi :ha" 6 ":" "ha")) (CString (lit "sad"))
  = Ok (lit "__sad__")
  /\ _getTextToReplace echo_props (state (session_at "hi :ha" 6 ":" "ha")) (CObject 1)
     = Throw (lit "RTA: Output function is not defined!")
  /\ _getTextToReplace echo_props State.initial (CObject 1) = Ok [].
Proof.
  intros p.
  destruct (getTextToReplace_cases p (state (session_at "hi :ha" 6 ":" "ha"))
              (CString (lit "sad"))) as (H1 & _).
  destruct (H1 (lit ":") _ eq_refl eq_refl) as (Hout & _).
  destruct (getTextToReplace_cases echo_props
              (state (session_at "hi :ha" 6 ":" "ha")) (CObject 1)) as (H2 & _).
  destruct (H2 (lit ":") _ eq_refl eq_refl) as (_ & Hthrow).
  destruct (getTextToReplace_cases echo_props State.initial (CObject 1))
    as (_ & H3).
  split; [|split].
  - rewrite (Hout underscore_output eq_refl). reflexivity.
  - exact (Hthrow 1 eq_refl eq_refl).
  - exact (H3 eq_refl).
Defined.

(** ** Prop validation *)

Lemma prop_function_truthy {F} (q : jsprop F) :
  negb (prop_truthy q) || negb (prop_is_function q) = negb (prop_is_function q).
Proof. now destruct q as [|[]|]. Qed.

Lemma check_entries_valid (trigger : option (list (jstring * Setting.t))) :
  triggerPropsCheck trigger = None
  <-> exists triggers, trigger = Some triggers /\ Forall valid_entry triggers.
Proof.
  destruct trigger as [triggers|]; simpl.
  2:{ split; [discriminate|]. intros (x & H & _). discriminate. }
  split.
  - intros H. exists triggers. split; [reflexivity|].
    induction triggers as [|[k st] rest IH]; [constructor|].
    simpl in H. rewrite !prop_function_truthy in H.
    destruct (Nat.eqb (length k) 1) eqn:Ek; simpl in H; [|discriminate].
    destruct (prop_is_function (Setting.component st)) eqn:Ec; simpl in H;
      [|discriminate].
    destruct (prop_is_function (Setting.dataProvider st)) eqn:Ed; simpl in H;
      [|discriminate].
    constructor; [|now apply IH].
    apply Nat.eqb_eq in Ek. repeat split; assumption.
  - intros (x & Hx & Hall). injection Hx as <-.
    induction Hall as [|[k st] rest (Hk & Hc & Hd) _ IH]; [reflexivity|].
    simpl in *. rewrite !prop_function_truthy, Hk, Hc, Hd. simpl. exact IH.
Qed.

(** X12. [triggerPropsCheck] returns [null] exactly when the trigger prop
    is present and every entry has a key of length one, a component that is
    a function and a data provider that is a function. *)
Theorem triggerPropsCheck_null_iff (trigger : option (list (jstring * Setting.t))) :
  triggerPropsCheck trigger = None
  <-> exists triggers, trigger = Some triggers /\ Forall valid_entry triggers.
Proof. exact (@check_entries_valid trigger). Qed.

(** X13. A validated trigger object never meets the configuration errors
    of the fetcher: whenever the tokenizer matches, the change sets the
    loading flag and puts one fetch in flight whose component is a function
    and whose data is a promise, and nothing is thrown. *)
Theorem validated_trigger_always_fetches (i : instance) (m : machine)
    (e : change_event) (t actualToken : jstring) :
  triggerPropsCheck (Some (Props.trigger (props i))) = None ->
  tokenize i (e_value e) (e_selectionEnd e) = Token t actualToken ->
  let m' := handle i m (Change e) in
  State.dataLoading (state m') = true
  /\ (exists f, pending m' = pending m ++ [f]
                /\ prop_is_function (then_component f) = true
                /\ instanceof_Promise (providedData f) = true)
  /\ log m' = log (notified i e (typed e m)) ++ [ProviderCalled actualToken].
Proof.
  intros Hcheck Htok. cbv zeta.
  apply check_entries_valid in Hcheck as (x & Hx & Hall).
  injection Hx as <-.
  pose proof Htok as Htok'. apply tokenize_Token_iff in Htok'.
  destruct Htok' as (pre & c & _ & -> & _ & _ & _ & _ & Hin).
  destruct (lookup_trigger_In _ _ Hin) as (st & Hst & Hinst).
  destruct (changeHandler_Token i m e Htok)
    as (st' & Hst' & _ & _ & _ & _ & Hopen & _).
  rewrite Hst in Hst'. injection Hst' as <-.
  rewrite Forall_forall in Hall. destruct (Hall _ Hinst) as (_ & Hc & Hd).
  simpl in Hc, Hd.
  destruct (Setting.dataProvider st) as [|b|dp] eqn:Edp; try discriminate.
  destruct (Hopen dp eq_refl) as (Hl & Hp & Hlog).
  split; [exact Hl|]. split; [|exact Hlog].
  eexists. split; [exact Hp|]. split; [exact Hc|].
  unfold issued_fetch. simpl.
  now destruct (instanceof_Promise (dp actualToken)) eqn:E.
Qed.

Lemma validated_trigger_always_fetches_witness :
  let m := handle (colon_instance number_props) (mounted number_props)
             (change_to ":a" 2) in
  State.dataLoading (state m) = true
  /\ log m = [ValueCommitted (lit ":a"); ProviderCalled (lit "a")].
Proof.
  intros m.
  destruct (@validated_trigger_always_fetches (colon_instance number_props)
              (mounted number_props)
              {| e_value := lit ":a"; e_selectionStart := 2; e_selectionEnd := 2;
                 e_top := 0; e_left := 0 |}
              (lit ":") (lit "a") eq_refl eq_refl) as (Hl & _ & Hlog).
  split; [exact Hl|]. exact (eq_trans Hlog eq_refl).
Defined.

(** ** What every reachable machine satisfies *)

Lemma sync_emit (x : effect) (m : machine) :
  textarea_in_sync m -> textarea_in_sync (emit x m).
Proof. intros (ta & Hr & Hv). now exists ta. Qed.

Lemma sync_setState (f : State.t -> State.t) (m : machine) :
  textarea_in_sync m -> textarea_in_sync (setState f m).
Proof.
  intros (ta & Hr & _). unfold textarea_in_sync, setState. simpl. rewrite Hr.
  simpl. eexists. split; [reflexivity|apply set_dom_value_value].
Qed.

Lemma sync_closeAutocomplete (m : machine) :
  textarea_in_sync m -> textarea_in_sync (_closeAutocomplete m).
Proof.
  intros H. unfold _closeAutocomplete.
  destruct (_getSuggestions (state m)); [now apply sync_setState|assumption].
Qed.

Lemma sync_add_pending (f : fetch) (m : machine) :
  textarea_in_sync m -> textarea_in_sync (add_pending f m).
Proof. intros (ta & Hr & Hv). now exists ta. Qed.

Lemma sync_getValuesFromProvider (p : Props.t) (m : machine) :
  textarea_in_sync m -> textarea_in_sync (_getValuesFromProvider p m).
Proof.
  intros H. unfold _getValuesFromProvider.
  destruct (trigger_set (State.currentTrigger (state m))); [|assumption].
  destruct (_getCurrentTriggerSettings p (state m)) as [st|]; [|assumption].
  destruct (Setting.dataProvider st).
  - now apply sync_emit.
  - now apply sync_emit.
  - apply sync_add_pending, sync_emit. now apply sync_setState.
Qed.

Lemma sync_settle (f : fetch) (m : machine) :
  textarea_in_sync m -> textarea_in_sync (settle f m).
Proof.
  intros H. unfold settle, onFulfilled.
  destruct (providedData f) as [| | | | | | |o]; try assumption.
  destruct o as [data|message]; [|now apply sync_emit].
  simpl. destruct (then_component f);
    [now apply sync_emit|now apply sync_emit|now apply sync_setState].
Qed.

Lemma sync_onSelect (p : Props.t) (newToken : jstring) (m : machine) :
  textarea_in_sync m -> textarea_in_sync (_onSelect p newToken m).
Proof.
  intros (ta & Hr & _).
  destruct (onSelect_mounted p newToken m Hr) as (Hv & _ & _ & _ & Hta & _).
  eexists. split; [exact Hta|]. simpl. now rewrite set_dom_value_value, Hv.
Qed.

Lemma getValuesFromProvider_frame (p : Props.t) (m : machine) :
  State.currentTrigger (state (_getValuesFromProvider p m))
  = State.currentTrigger (state m)
  /\ (pending (_getValuesFromProvider p m) = pending m
      \/ exists t st dp,
           trigger_set (State.currentTrigger (state m)) = Some t
           /\ lookup_trigger (Props.trigger p) t = Some st
           /\ pending (_getValuesFromProvider p m)
              = pending m ++ [issued_fetch st dp (State.actualToken (state m))]).
Proof.
  unfold _getValuesFromProvider, _getCurrentTriggerSettings.
  destruct (trigger_set (State.currentTrigger (state m))) as [t|] eqn:Et;
    [|split; [reflexivity|now left]].
  destruct (lookup_trigger (Props.trigger p) t) as [st|] eqn:Est;
    [|split; [reflexivity|now left]].
  destruct (Setting.dataProvider st) as [|b|dp];
    try (split; [reflexivity|now left]).
  split; [reflexivity|]. right. exists t, st, dp.
  repeat split; try reflexivity; assumption.
Qed.

Lemma settle_frame (f : fetch) (m : machine) :
  State.currentTrigger (state (settle f m)) = State.currentTrigger (state m)
  /\ pending (settle f m) = pending m.
Proof.
  unfold settle, onFulfilled.
  destruct (providedData f) as [| | | | | | |o]; try (split; reflexivity).
  destruct o as [data|message]; [|split; reflexivity].
  simpl. destruct (then_component f); split; reflexivity.
Qed.

Lemma lookup_trigger_Some_In (trigger : list (jstring * Setting.t))
    (k : jstring) (st : Setting.t) :
  lookup_trigger trigger k = Some st -> In (k, st) trigger.
Proof.
  induction trigger as [|[k' st'] rest IH]; simpl; [discriminate|].
  destruct (eqb k' k) eqn:E.
  - intros H. injection H as <-. apply eqb_eq in E. subst k'. now left.
  - intros H. right. now apply IH.
Qed.

Lemma Forall_remove_nth {A} (P : A -> Prop) (k : nat) (l : list A) :
  Forall P l -> Forall P (remove_nth k l).
Proof.
  intros H. revert k. induction H as [|x l Hx Hl IH]; intros k.
  - destruct k; constructor.
  - destruct k; simpl; [assumption|]. constructor; [assumption|apply IH].
Qed.

Lemma handle_currentTrigger (i : instance) (m : machine)
    (ev : event) :
  State.currentTrigger (state (handle i m ev))
  = match ev with
    | Change e =>
        match tokenize i (e_value e) (e_selectionEnd e) with
        | Token t _ => Some t
        | _ => State.currentTrigger (state m)
        end
    | _ => State.currentTrigger (state m)
    end.
Proof.
  destruct ev as [e| | |k|item].
  - change (handle i m (Change e)) with (_changeHandler i e (typed e m)).
    rewrite changeHandler_unfold.
    destruct (notified_facts i e (typed e m)) as (Hs & _).
    destruct (tokenize i (e_value e) (e_selectionEnd e)) as [| |t a].
    + destruct (closeAutocomplete_frame (notified i e (typed e m)))
        as (_ & _ & Ht & _).
      now rewrite Ht, Hs.
    + now rewrite Hs.
    + match goal with
      | |- context [_getValuesFromProvider ?q ?x] =>
          destruct (getValuesFromProvider_frame q x) as (Ht & _); rewrite Ht
      end.
      reflexivity.
  - unfold handle, handle_with, _selectHandler.
    now destruct (Props.onCaretPositionChange (props i)).
  - change (handle i m Escape) with (_closeAutocomplete m).
    now destruct (closeAutocomplete_frame m) as (_ & _ & Ht & _).
  - unfold handle, handle_with.
    destruct (nth_error (pending m) k) as [f|]; [|reflexivity].
    now destruct (settle_frame f (drop_pending k m)) as (Ht & _).
  - unfold handle, handle_with, choose.
    destruct (_getTextToReplace (props i) (state m) item) as [newToken|msg];
      [|reflexivity].
    now destruct (onSelect_frame (props i) newToken m)
      as (_ & _ & _ & Ht & _).
Qed.

(** X14. No event ever clears the current trigger or lets it be anything
    but a configured key: after an event the current trigger is the one the
    tokenizer matched, if the event is a change with a match, and the one
    it was before in every other case (escape, commit, settlement, a change
    without a match). *)
Theorem currentTrigger_only_set_by_match (i : instance) (m : machine)
    (ev : event) :
  State.currentTrigger (state (handle i m ev))
  = match ev with
    | Change e =>
        match tokenize i (e_value e) (e_selectionEnd e) with
        | Token t _ => Some t
        | _ => State.currentTrigger (state m)
        end
    | _ => State.currentTrigger (state m)
    end.
Proof. exact (@handle_currentTrigger i m ev). Qed.

Lemma handle_invariant (i : instance) (m : machine) (ev : event) :
  invariant (props i) m -> invariant (props i) (handle i m ev).
Proof.
  intros (Hsync & Htrig & Hpend).
  split; [|split].
  - (* the textarea holds the state's value *)
    destruct ev as [e| | |k|item].
    + change (handle i m (Change e)) with (_changeHandler i e (typed e m)).
      rewrite changeHandler_unfold.
      assert (Hn : textarea_in_sync (notified i e (typed e m))).
      { destruct Hsync as (ta & Hr & _).
        destruct (notified_facts i e (typed e m)) as (Hs & _ & Href & _).
        unfold textarea_in_sync. rewrite Href, Hs. unfold typed. simpl.
        rewrite Hr. simpl. eexists. split; [reflexivity|].
        apply set_dom_value_value. }
      destruct (tokenize i (e_value e) (e_selectionEnd e)).
      * now apply sync_closeAutocomplete.
      * assumption.
      * apply sync_getValuesFromProvider. now do 2 apply sync_setState.
    + unfold handle, handle_with, _selectHandler.
      destruct (Props.onCaretPositionChange (props i));
        [now apply sync_emit|assumption].
    + now apply sync_closeAutocomplete.
    + unfold handle, handle_with.
      destruct (nth_error (pending m) k) as [f|]; [|assumption].
      apply sync_settle. destruct Hsync as (ta & Hr & Hv). now exists ta.
    + unfold handle, handle_with, choose.
      destruct (_getTextToReplace (props i) (state m) item);
        [now apply sync_onSelect|now apply sync_emit].
  - (* the current trigger is a configured key *)
    unfold trigger_configured. rewrite handle_currentTrigger.
    destruct ev as [e| | |k|item]; try exact Htrig.
    destruct (tokenize i (e_value e) (e_selectionEnd e)) as [| |t a] eqn:E;
      try exact Htrig.
    apply tokenize_Token_iff in E. destruct E as (pre & c & _ & -> & _ & _ & _ & _ & Hin).
    right. exists c. now split.
  - (* the fetches in flight *)
    destruct ev as [e| | |k|item].
    + change (handle i m (Change e)) with (_changeHandler i e (typed e m)).
      rewrite changeHandler_unfold.
      destruct (notified_facts i e (typed e m)) as (_ & Hp & _).
      destruct (tokenize i (e_value e) (e_selectionEnd e)) as [| |t a].
      * destruct (closeAutocomplete_frame (notified i e (typed e m)))
          as (_ & _ & _ & _ & _ & _ & Hp' & _).
        now rewrite Hp', Hp.
      * now rewrite Hp.
      * match goal with
        | |- context [_getValuesFromProvider ?q ?x] =>
            destruct (getValuesFromProvider_frame q x)
              as (_ & [Hq | (t' & st & dp & _ & Hst & Hq)]); rewrite Hq
        end.
        -- unfold setState. cbn [pending]. now rewrite Hp.
        -- unfold setState. cbn [pending]. rewrite Hp.
           apply Forall_app. split; [exact Hpend|].
           constructor; [|constructor]. split.
           ++ unfold issued_fetch. simpl.
              match goal with
              | |- context [instanceof_Promise ?v] =>
                  now destruct (instanceof_Promise v) eqn:Ev
              end.
           ++ exists t', st. split; [|reflexivity].
              now apply lookup_trigger_Some_In.
    + unfold handle, handle_with, _selectHandler.
      now destruct (Props.onCaretPositionChange (props i)).
    + change (handle i m Escape) with (_closeAutocomplete m).
      destruct (closeAutocomplete_frame m) as (_ & _ & _ & _ & _ & _ & Hp & _).
      now rewrite Hp.
    + unfold handle, handle_with.
      destruct (nth_error (pending m) k) as [f|]; [|assumption].
      destruct (settle_frame f (drop_pending k m)) as (_ & Hp). rewrite Hp.
      simpl. now apply Forall_remove_nth.
    + unfold handle, handle_with, choose.
      destruct (_getTextToReplace (props i) (state m) item) as [newToken|msg];
        [|assumption].
      destruct (onSelect_frame (props i) newToken m)
        as (_ & _ & _ & _ & _ & _ & Hp).
      now rewrite Hp.
Qed.

(** X15. After any sequence of events on a mounted component: the
    textarea is present and holds exactly the value of the state; the
    current trigger is [null] or a one-character configured key; and every
    fetch in flight holds a promise (so the test on [providedData] in the
    [then] callback can never fail) together with the component of a
    configured trigger. *)
Theorem reachable_invariant (i : instance) (evs : list event) :
  invariant (props i) (run i (mounted (props i)) evs).
Proof.
  assert (Hgen : forall m, invariant (props i) m ->
                           invariant (props i) (run i m evs)).
  { induction evs as [|ev evs IH]; intros m Hm; [exact Hm|].
    simpl. apply IH. now apply handle_invariant. }
  apply Hgen. split; [|split].
  - eexists. split; reflexivity.
  - now left.
  - constructor.
Qed.

(** ** Construction, prop updates and rendering *)

(** X16. With plain trigger keys the constructor succeeds exactly when a
    loading component is given, and the pattern it builds accepts exactly
    the configured keys as first character; without a loading component it
    throws "RTA: loadingComponent is not defined". *)
Theorem constructor_plain_keys (p : Props.t) :
  Forall plain_key (map fst (Props.trigger p)) ->
  (Props.loadingComponent p = true ->
     exists i, constructor p = Ok i /\ props i = p
               /\ forall c, tokenRegExp i c = true
                            <-> In [c] (map fst (Props.trigger p)))
  /\ (Props.loadingComponent p = false ->
      constructor p = Throw (lit "RTA: loadingComponent is not defined")).
Proof.
  intros Hplain.
  destruct (build_tokenRegExp_plain _ Hplain) as (cls & Hcls & Hiff).
  unfold constructor. rewrite Hcls. split; intros ->; simpl.
  - eexists. split; [reflexivity|]. split; [reflexivity|exact Hiff].
  - reflexivity.
Qed.

Lemma constructor_plain_keys_witness :
  exists i, constructor echo_props = Ok i
            /\ tokenRegExp i 58%N = true /\ tokenRegExp i 64%N = false.
Proof.
  assert (Hplain : Forall plain_key (map fst (Props.trigger echo_props))).
  { repeat constructor. exists 58%N. repeat split; discriminate. }
  destruct (@constructor_plain_keys echo_props Hplain) as (Hok & _).
  destruct (Hok eq_refl) as (i & Hi & _ & Hiff).
  exists i. split; [exact Hi|]. split.
  - apply Hiff. now left.
  - destruct (tokenRegExp i 64%N) eqn:E; [|reflexivity].
    apply Hiff in E. destruct E as [E|[]]. discriminate.
Defined.

Lemma class_ranges_None (n : nat) (body : jstring) :
  length body <= n ->
  forallb (fun c => negb (N.eqb c BACKSLASH || N.eqb c RBRACKET)) body = true ->
  class_ranges body = None ->
  exists pre a b rest,
    body = pre ++ a :: HYPHEN :: b :: rest /\ (b < a)%N.
Proof.
  revert body. induction n as [|n IH]; intros body Hlen Hcov.
  - destruct body; [discriminate|simpl in Hlen; lia].
  - destruct body as [|a rest]; [discriminate|].
    cbn [forallb] in Hcov. apply andb_true_iff in Hcov as [Ha Hrest].
    apply negb_true_iff in Ha. cbn [class_ranges]. rewrite Ha.
    simpl in Hlen.
    assert (Hstep : class_ranges rest = None ->
                    exists pre a0 b rest0,
                      a :: rest = pre ++ a0 :: HYPHEN :: b :: rest0 /\ (b < a0)%N).
    { intros Hn. destruct (IH rest ltac:(lia) Hrest Hn)
        as (pre & a0 & b & rest0 & -> & Hlt).
      now exists (a :: pre), a0, b, rest0. }
    destruct rest as [|d [|b rest']].
    + discriminate.
    + destruct (class_ranges [d]); [discriminate|]. intros _. now apply Hstep.
    + destruct (N.eqb d HYPHEN) eqn:Ed.
      * apply N.eqb_eq in Ed. subst d.
        cbn [forallb] in Hrest. apply andb_true_iff in Hrest as [_ Hrest].
        apply andb_true_iff in Hrest as [Hb Hrest'].
        apply negb_true_iff in Hb. rewrite Hb.
        destruct (b <? a)%N eqn:Hlt.
        -- intros _. apply N.ltb_lt in Hlt. now exists [], a, b, rest'.
        -- simpl in Hlen.
           destruct (class_ranges rest') eqn:Er; [discriminate|]. intros _.
           destruct (IH rest' ltac:(lia) Hrest' Er)
             as (pre & a0 & b0 & rest0 & -> & Hlt0).
           now exists (a :: HYPHEN :: b :: pre), a0, b0, rest0.
      * destruct (class_ranges (d :: b :: rest')) eqn:Er; [discriminate|].
        intros _. now apply Hstep.
Qed.

(** For a covered trigger object the pattern fails to build only when the
    keys spell a range whose ends are out of order. *)
Lemma build_tokenRegExp_None (trigger : list (jstring * Setting.t)) :
  covered trigger = true ->
  build_tokenRegExp trigger = None ->
  exists pre a b rest,
    concat (map fst trigger) = pre ++ a :: HYPHEN :: b :: rest /\ (b < a)%N.
Proof.
  unfold covered, build_tokenRegExp, char_class.
  destruct (concat (map fst trigger)) as [|a0 rest0] eqn:E; [discriminate|].
  intros Hcov. destruct (N.eqb a0 CARET).
  - cbn [forallb] in Hcov. apply andb_true_iff in Hcov as [_ Hcov].
    destruct (class_ranges rest0) eqn:Er; [discriminate|]. intros _.
    destruct (@class_ranges_None _ _ (Nat.le_refl _) Hcov Er)
      as (pre & a & b & rest & -> & Hlt).
    now exists (a0 :: pre), a, b, rest.
  - intros Hn. now apply (@class_ranges_None _ _ (Nat.le_refl _) Hcov).
Qed.

(** X17. [_update] for new props whose trigger object is the one the
    instance has, or is covered (no key holds a backslash or a closing
    bracket).  When it returns, the state's value is the new [value] prop
    in every case, while the session is left alone: trigger, token,
    candidates, loading flag, recorded selection end and fetches in flight
    are as before (so the recorded selection end may lie beyond the new
    text); the token pattern is kept when the trigger object is the same
    one, even if its keys changed, and is built from the new keys
    otherwise.  It throws only when the trigger object is another one and
    its keys spell a range out of order. *)
Theorem update_takes_value_keeps_session (i : instance) (n : next_props)
    (m : machine) :
  same_trigger n = true \/ covered (Props.trigger (nextProps n)) = true ->
  exists m' r,
    _update i n m = Some (m', r)
    /\ match r with
       | Ok i' =>
           props i' = nextProps n
           /\ State.value (state m') = Props.value (nextProps n)
           /\ State.currentTrigger (state m') = State.currentTrigger (state m)
           /\ State.actualToken (state m') = State.actualToken (state m)
           /\ State.data (state m') = State.data (state m)
           /\ State.dataLoading (state m') = State.dataLoading (state m)
           /\ State.selectionEnd (state m') = State.selectionEnd (state m)
           /\ pending m' = pending m
           /\ (if same_trigger n
               then tokenRegExp i' = tokenRegExp i
               else build_tokenRegExp (Props.trigger (nextProps n))
                    = Some (tokenRegExp i'))
       | Throw _ =>
           same_trigger n = false
           /\ exists pre a b rest,
                concat (map fst (Props.trigger (nextProps n)))
                = pre ++ a :: HYPHEN :: b :: rest /\ (b < a)%N
       end.
Proof.
  intros Hdom. unfold _update.
  set (m1 := if negb (eqb (Props.value (nextProps n)) (State.value (state m)))
                || eqb (State.value (state m)) []
             then emit (ValueCommitted (Props.value (nextProps n)))
                    (setState (State.set_value (Props.value (nextProps n))) m)
             else m).
  assert (H1 : State.value (state m1) = Props.value (nextProps n)
               /\ State.currentTrigger (state m1) = State.currentTrigger (state m)
               /\ State.actualToken (state m1) = State.actualToken (state m)
               /\ State.data (state m1) = State.data (state m)
               /\ State.dataLoading (state m1) = State.dataLoading (state m)
               /\ State.selectionEnd (state m1) = State.selectionEnd (state m)
               /\ pending m1 = pending m).
  { unfold m1.
    destruct (eqb (Props.value (nextProps n)) (State.value (state m))) eqn:E;
      simpl.
    - apply eqb_eq in E.
      destruct (eqb (State.value (state m)) []); simpl;
        repeat split; try reflexivity; now symmetry.
    - repeat split; reflexivity. }
  clearbody m1. destruct H1 as (? & ? & ? & ? & ? & ? & ?).
  destruct (same_trigger n) eqn:Es; simpl.
  - eexists _, _. split; [reflexivity|]. simpl. repeat split; assumption.
  - destruct Hdom as [Hd|Hcov]; [discriminate|]. rewrite Hcov.
    destruct (build_tokenRegExp (Props.trigger (nextProps n))) eqn:Eb.
    + eexists _, _. split; [reflexivity|]. simpl. repeat split; assumption.
    + eexists _, _. split; [reflexivity|]. simpl. split; [reflexivity|].
      now apply build_tokenRegExp_None.
Qed.

Lemma update_takes_value_keeps_session_witness :
  let m := session_at "hi :ha" 6 ":" "ha" in
  exists m' i',
    _update (colon_instance echo_props) next_happy_props m = Some (m', Ok i')
    /\ State.value (state m') = lit "typed elsewhere"
    /\ State.selectionEnd (state m') = 6.
Proof.
  intros m.
  destruct (@update_takes_value_keeps_session (colon_instance echo_props)
              next_happy_props m (or_intror eq_refl)) as (m' & r & Hu & Hr).
  destruct r as [i'|message].
  - exists m', i'. destruct Hr as (_ & Hv & _ & _ & _ & _ & Hs & _).
    split; [exact Hu|]. split; [exact Hv|]. exact Hs.
  - exfalso. destruct Hr as (_ & pre & a & b & rest & Hk & _).
    destruct pre as [|x [|y pre]]; discriminate.
Defined.

(** X18. [_getSuggestions] returns the stored data exactly when a trigger
    is current and the data has a positive [length] (an array or, since
    nothing checks the resolved value, a string); and whenever [render]
    shows the list it shows the overlay around it. *)
Theorem getSuggestions_iff (s : State.t) (d : jsval) :
  (_getSuggestions s = Some d
   <-> d = State.data s
       /\ (exists t, trigger_set (State.currentTrigger s) = Some t)
       /\ exists n, length_of d = Some (S n))
  /\ (list_shown s = true -> overlay_shown s = true).
Proof.
  split.
  - unfold _getSuggestions. split.
    + destruct (trigger_set (State.currentTrigger s)) as [t|]; [|discriminate].
      destruct (truthy (State.data s)); simpl; [|discriminate].
      destruct (length_of (State.data s)) as [[|n]|] eqn:E; try discriminate.
      intros H. injection H as <-. split; [reflexivity|].
      split; [now exists t|now exists n].
    + intros (-> & (t & ->) & (n & Hn)). rewrite Hn.
      destruct (State.data s) as [| | | |str|items| |]; try discriminate;
        simpl in *; [|reflexivity].
      destruct str; [discriminate|reflexivity].
  - unfold list_shown, overlay_shown.
    destruct (_getSuggestions s); [|discriminate].
    intros _. apply orb_true_r.
Qed.
